(** * who-can: resource resolution, review dispatch and report

    A shallow embedding of [pkg/cmd/admin/policy/who_can.go] (OpenShift
    Origin, vendored): [resourceFor], which turns the RESOURCE argument of
    [who-can VERB RESOURCE] into a group/version/resource reference with the
    help of a REST mapper, and [whoCanOptions.run], which sends one access
    review and prints the answer.

    Go strings are byte strings ([string]); [strings.ToLower] of the Go
    library is a parameter of the development; the REST mapper and the
    client are the interfaces the command is handed, modelled as records of
    functions; the calls made on them and the [fmt.Printf] calls are logged
    in order, so that statements such as "the second lookup is never made"
    or "nothing is printed" are statements about the log. *)

From Stdlib Require Import Ascii String List Bool Arith Lia.
From stdpp Require Import base decidable list sorting strings gmap.

(** ** Go's [strings] package, as far as the command uses it *)

Module strings.

(** [c] is one of the bytes 'A'..'Z'. *)
Definition isUpperByte (c : ascii) : bool :=
  let n := nat_of_ascii c in (65 <=? n)%nat && (n <=? 90)%nat.

(** What [strings.ToLower] does to a byte below 128: 'A'..'Z' are moved to
    'a'..'z' ([c += 'a' - 'A']), every other such byte is kept. *)
Definition toLowerByte (c : ascii) : ascii :=
  if isUpperByte c then ascii_of_nat (nat_of_ascii c + 32) else c.

(** [strings.Join(elems, sep)]. *)
Fixpoint Join (elems : list string) (sep : string) : string :=
  match elems with
  | [] => ""
  | [x] => x
  | x :: rest => x +:+ sep +:+ Join rest sep
  end.

(** [strings.Index(s, ".") == -1]: no byte of [s] is a dot. *)
Fixpoint hasDot (s : string) : bool :=
  match s with
  | EmptyString => false
  | String c s' => if Ascii.eqb c "."%char then true else hasDot s'
  end.

(** [s] contains at least one of the bytes 'A'..'Z'. *)
Fixpoint hasUpper (s : string) : bool :=
  match s with
  | EmptyString => false
  | String c s' => isUpperByte c || hasUpper s'
  end.

(** [strings.SplitN(s, ".", 2)]: [None] when the result has one element
    (no dot), otherwise the text before the first dot and the text after
    it. *)
Fixpoint cutDot (s : string) : option (string * string) :=
  match s with
  | EmptyString => None
  | String c s' =>
      if Ascii.eqb c "."%char then Some (EmptyString, s')
      else match cutDot s' with
           | Some (a, b) => Some (String c a, b)
           | None => None
           end
  end.

(** [strings.ToLower], of the Go library, which is not among the sources.
    It decodes the string into runes and maps each with [unicode.ToLower],
    whose table is not among the sources either, so the function is taken as
    a parameter, together with the three facts about it that the proofs
    use.  Each is a fact about Go's function: a rune is mapped to a dot only
    when it is a dot, and no other rune has a dot among its bytes; no rune is
    mapped to one of 'A'..'Z', and no rune beyond them has such a byte; each
    of 'A'..'Z' is a rune of its own wherever it stands and is mapped to
    another rune, which changes the string. *)
Class Lowering : Type := {
  ToLower : string -> string;
  ToLower_hasDot : forall s, hasDot (ToLower s) = hasDot s;
  ToLower_not_upper : forall s, hasUpper (ToLower s) = false;
  ToLower_changes_upper : forall s, hasUpper s = true -> ToLower s <> s
}.

(** The first byte of the two that encode a rune of U+00C0..U+00FF, and the
    second byte of an upper-case letter among them (U+00C0..U+00DE without
    the multiplication sign U+00D7). *)
Definition isLatin1Lead (c : ascii) : bool := (nat_of_ascii c =? 195)%nat.

Definition isLatin1UpperTail (d : ascii) : bool :=
  let n := nat_of_ascii d in
  (128 <=? n)%nat && (n <=? 158)%nat && negb (n =? 151)%nat.

(** A function to run the command with: what [strings.ToLower] does to a
    string of runes up to U+00FF, the Basic Latin and Latin-1 letters.  The
    upper-case letters among them are 'A'..'Z' and the two-byte runes above,
    and the lower-case letter is 32 further in both cases.  (Runes beyond
    U+00FF are not looked at: their bytes are kept.) *)
Fixpoint toLowerLatin1 (s : string) : string :=
  match s with
  | EmptyString => EmptyString
  | String c rest =>
      match rest with
      | String d rest' =>
          if isLatin1Lead c && isLatin1UpperTail d
          then String c (String (ascii_of_nat (nat_of_ascii d + 32))
                           (toLowerLatin1 rest'))
          else String (toLowerByte c) (toLowerLatin1 rest)
      | EmptyString => String (toLowerByte c) EmptyString
      end
  end.

(** [toLowerLatin1] has the three properties. *)
Definition latin1 : Lowering.
Proof.
  refine {| ToLower := toLowerLatin1 |}.
  - assert (Hc : forall c, Ascii.eqb (toLowerByte c) "." = Ascii.eqb c ".").
    { intros c. destruct c as [[] [] [] [] [] [] [] []]; reflexivity. }
    assert (Hp : forall c d,
               isLatin1Lead c && isLatin1UpperTail d = true ->
               Ascii.eqb c "." = false /\ Ascii.eqb d "." = false
               /\ Ascii.eqb (ascii_of_nat (nat_of_ascii d + 32)) "." = false).
    { intros c d H. apply andb_true_iff in H as [H1 H2]. split.
      - clear H2. destruct c as [[] [] [] [] [] [] [] []]; cbv in H1 |- *;
          try discriminate H1; reflexivity.
      - clear H1. destruct d as [[] [] [] [] [] [] [] []]; cbv in H2 |- *;
          try discriminate H2; split; reflexivity. }
    assert (H : forall s,
               hasDot (toLowerLatin1 s) = hasDot s
               /\ forall c, hasDot (toLowerLatin1 (String c s)) =
                            hasDot (String c s)).
    { induction s as [|d s [IH1 IH2]].
      - split; [reflexivity|]. intros c. cbn. rewrite (Hc c). reflexivity.
      - split; [apply IH2|]. intros c.
        cbn [toLowerLatin1]. fold toLowerLatin1.
        destruct (isLatin1Lead c && isLatin1UpperTail d) eqn:E.
        + destruct (Hp c d E) as (H1 & H3 & H4).
          cbn [hasDot]. rewrite H1, H3, H4. exact IH1.
        + change (hasDot (String (toLowerByte c) (toLowerLatin1 (String d s))) =
                  hasDot (String c (String d s))).
          cbn [hasDot]. rewrite (Hc c), (IH2 d). reflexivity. }
    intros s. apply H.
  - assert (Hc : forall c, isUpperByte (toLowerByte c) = false).
    { intros c. destruct c as [[] [] [] [] [] [] [] []]; reflexivity. }
    assert (Hp : forall c d,
               isLatin1Lead c && isLatin1UpperTail d = true ->
               isUpperByte c = false
               /\ isUpperByte (ascii_of_nat (nat_of_ascii d + 32)) = false).
    { intros c d H. apply andb_true_iff in H as [H1 H2]. split.
      - clear H2. destruct c as [[] [] [] [] [] [] [] []]; cbv in H1 |- *;
          try discriminate H1; reflexivity.
      - clear H1. destruct d as [[] [] [] [] [] [] [] []]; cbv in H2 |- *;
          try discriminate H2; reflexivity. }
    assert (H : forall s,
               hasUpper (toLowerLatin1 s) = false
               /\ forall c, hasUpper (toLowerLatin1 (String c s)) = false).
    { induction s as [|d s [IH1 IH2]].
      - split; [reflexivity|]. intros c. cbn. rewrite (Hc c). reflexivity.
      - split; [apply IH2|]. intros c.
        cbn [toLowerLatin1]. fold toLowerLatin1.
        destruct (isLatin1Lead c && isLatin1UpperTail d) eqn:E.
        + destruct (Hp c d E) as (H2 & H5).
          cbn [hasUpper]. rewrite H2, H5. exact IH1.
        + change (hasUpper (String (toLowerByte c) (toLowerLatin1 (String d s)))
                  = false).
          cbn [hasUpper]. rewrite (Hc c), (IH2 d). reflexivity. }
    intros s. apply H.
  - assert (Hc : forall c, toLowerByte c = c -> isUpperByte c = false).
    { intros c. destruct c as [[] [] [] [] [] [] [] []]; cbv; congruence. }
    assert (Hp : forall c d,
               isLatin1Lead c && isLatin1UpperTail d = true ->
               ascii_of_nat (nat_of_ascii d + 32) <> d).
    { intros c d H. apply andb_true_iff in H as [_ H2].
      destruct d as [[] [] [] [] [] [] [] []]; cbv in H2 |- *;
        try discriminate H2; congruence. }
    assert (H : forall s,
               (toLowerLatin1 s = s -> hasUpper s = false)
               /\ forall c, toLowerLatin1 (String c s) = String c s ->
                            hasUpper (String c s) = false).
    { induction s as [|d s [IH1 IH2]].
      - split; [reflexivity|]. intros c. cbn. intros [= H].
        rewrite (Hc c H). reflexivity.
      - split; [apply IH2|]. intros c.
        cbn [toLowerLatin1]. fold toLowerLatin1.
        destruct (isLatin1Lead c && isLatin1UpperTail d) eqn:E.
        + pose proof (Hp c d E) as H6.
          intros [= H _]. contradiction.
        + change (String (toLowerByte c) (toLowerLatin1 (String d s)) =
                  String c (String d s) ->
                  hasUpper (String c (String d s)) = false).
          intros [= Hb Hs]. cbn [hasUpper].
          rewrite (Hc c Hb). exact (IH2 d Hs). }
    intros s Hup Heq. rewrite (proj1 (H s) Heq) in Hup. discriminate Hup.
Defined.

End strings.

(** ** [k8s.io/kubernetes/pkg/api/unversioned] *)

Module unversioned.

(** Modelled from the spec: the struct is declared in the unversioned
    package, which is not among the sources; the command reads and writes the
    three fields.  The spec: "canonical triple {group: string, version:
    string, resource: string}". *)
Record GroupVersionResource : Type := {
  Group : string;
  Version : string;
  Resource : string
}.

(** Modelled from the spec: declared in the unversioned package.  The spec:
    "a degraded form of VersionedResourceRef with version omitted - used as
    the fallback lookup key". *)
Record GroupResource : Type := {
  grGroup : string;
  grResource : string
}.

#[global] Instance GroupVersionResource_eq_dec : EqDecision GroupVersionResource.
Proof. solve_decision. Defined.

(** The zero value [unversioned.GroupVersionResource{}]. *)
Definition zeroGVR : GroupVersionResource :=
  {| Group := ""; Version := ""; Resource := "" |}.

(** Modelled from the spec: [GroupVersionResource.IsEmpty] is declared in
    the unversioned package, which is not among the sources.  The spec:
    "Empty is a valid sentinel state (all fields blank) used to detect
    resolution failure". *)
Definition IsEmpty (gvr : GroupVersionResource) : bool :=
  (String.length (Group gvr) =? 0)%nat
  && (String.length (Version gvr) =? 0)%nat
  && (String.length (Resource gvr) =? 0)%nat.

(** Modelled from the spec: [GroupResource.WithVersion] is declared in the
    unversioned package, which is not among the sources.  The spec: the
    group-resource is the reference "with version omitted", and the
    fallback queries "the mapper with an empty version". *)
Definition WithVersion (gr : GroupResource) (version : string)
  : GroupVersionResource :=
  {| Group := grGroup gr; Version := version; Resource := grResource gr |}.

(** Modelled from the spec: [ParseGroupResource] is declared in the
    unversioned package, which is not among the sources.  The spec:
    "a bare group-resource (resource plus optional dotted group suffix, no
    version)"; "a token with no dots is treated as a bare resource with
    empty group". *)
Definition ParseGroupResource (gr : string) : GroupResource :=
  match strings.cutDot gr with
  | None => {| grGroup := ""; grResource := gr |}
  | Some (r, g) => {| grGroup := g; grResource := r |}
  end.

(** Modelled from the spec: [ParseResourceArg] is declared in the
    unversioned package, which is not among the sources.  The spec: the
    token is parsed "as a fully-qualified reference of the shape
    resource.version.group (dot-separated ...)", which yields "a
    fully-specified group-version-resource candidate" or none (a nil
    pointer in the code), and in any case as a group-resource.  The
    candidate exists when the token splits in three at its first two dots;
    the group is everything after the second dot. *)
Definition ParseResourceArg (arg : string)
  : option GroupVersionResource * GroupResource :=
  let gvr :=
    match strings.cutDot arg with
    | Some (r, rest) =>
        match strings.cutDot rest with
        | Some (v, g) => Some {| Group := g; Version := v; Resource := r |}
        | None => None
        end
    | None => None
    end in
  (gvr, ParseGroupResource arg).

End unversioned.

Import unversioned.

(** Go's [error] values, identified by their message. *)
Definition error : Type := string.

(** ** The REST mapper and the log of the lookups made on it *)

Module meta.

(** Modelled from the spec: the interface [meta.RESTMapper] is declared in
    the Kubernetes meta package, which is not among the sources;
    [resourceFor] uses one method of it.  The spec: "consumed as a
    capability: ResourceFor(partial-reference) -> (full-reference, error)".
    A Go call returns both values: a reference, and an error that may be
    nil. *)
Record RESTMapper : Type := {
  ResourceFor : GroupVersionResource -> GroupVersionResource * option error
}.

End meta.

Import meta.

(** A computation that logs the calls it makes: it extends the log of the
    events so far and returns a value. *)
Definition Logged (E A : Type) : Type := list E -> A * list E.

Definition lret {E A} (a : A) : Logged E A := fun log => (a, log).

Definition lbind {E A B} (c : Logged E A) (k : A -> Logged E B) : Logged E B :=
  fun log => let (a, log') := c log in k a log'.

Definition emit {E} (e : E) : Logged E unit := fun log => (tt, log ++ [e]).

Declare Scope logged_scope.
Delimit Scope logged_scope with logged.
Notation "'let*' x ':=' c 'in' k" := (lbind c (fun x => k))
  (at level 10, x pattern, c at level 100, k at level 200) : logged_scope.

(** A computation that consults the mapper; the log is the list of the
    queries made. *)
Definition Lookup (A : Type) : Type := Logged GroupVersionResource A.

(** [mapper.ResourceFor(q)], logged. *)
Definition callResourceFor (mapper : RESTMapper) (q : GroupVersionResource)
  : Lookup (GroupVersionResource * option error) :=
  (let* _ := emit q in lret (ResourceFor mapper q))%logged.

(** The reference of last resort,
    [unversioned.GroupVersionResource{Resource: resourceArg}]. *)
Definition degenerate (resourceArg : string) : GroupVersionResource :=
  {| Group := ""; Version := ""; Resource := resourceArg |}.

(** [resourceFor] (who_can.go, lines 75-90), for the [strings.ToLower] at
    hand. *)
Definition resourceFor `{strings.Lowering}
  (mapper : RESTMapper) (resourceArg : string)
  : Lookup GroupVersionResource :=
  (let '(fullySpecifiedGVR, groupResource) :=
     ParseResourceArg (strings.ToLower resourceArg) in
   let* gvr :=
     match fullySpecifiedGVR with
     | Some f => let* (g, _) := callResourceFor mapper f in lret g
     | None => lret zeroGVR
     end in
   if IsEmpty gvr then
     let* (gvr', err) := callResourceFor mapper (WithVersion groupResource "") in
     match err with
     | Some _ => lret (degenerate resourceArg)
     | None => lret gvr'
     end
   else lret gvr)%logged.

(** The reference [resourceFor] returns, and the mapper queries it makes,
    in order. *)
Definition resolve `{strings.Lowering}
  (mapper : RESTMapper) (resourceArg : string)
  : GroupVersionResource :=
  fst (resourceFor mapper resourceArg []).

Definition lookups `{strings.Lowering}
  (mapper : RESTMapper) (resourceArg : string)
  : list GroupVersionResource :=
  snd (resourceFor mapper resourceArg []).

(** The two candidates read off the lowercased token (line 76). *)
Definition fullySpecified `{strings.Lowering} (resourceArg : string)
  : option GroupVersionResource :=
  fst (ParseResourceArg (strings.ToLower resourceArg)).

Definition groupResourceQuery `{strings.Lowering} (resourceArg : string)
  : GroupVersionResource :=
  WithVersion (snd (ParseResourceArg (strings.ToLower resourceArg))) "".

(** The value of [gvr] when line 81 tests it: the mapper's answer to the
    fully-qualified query, or the zero value when there is no such query. *)
Definition fullySpecifiedAnswer `{strings.Lowering}
  (mapper : RESTMapper) (resourceArg : string)
  : GroupVersionResource :=
  match fullySpecified resourceArg with
  | Some f => fst (ResourceFor mapper f)
  | None => zeroGVR
  end.

(** The outcome of lines 83-86: the answer to the group-resource query, or
    the reference of last resort when that answer comes with an error. *)
Definition secondStage `{strings.Lowering}
  (mapper : RESTMapper) (resourceArg : string)
  : GroupVersionResource :=
  match snd (ResourceFor mapper (groupResourceQuery resourceArg)) with
  | Some _ => degenerate resourceArg
  | None => fst (ResourceFor mapper (groupResourceQuery resourceArg))
  end.

(** No field of the reference has one of the bytes 'A'..'Z'. *)
Definition lowerCased (q : GroupVersionResource) : Prop :=
  strings.hasUpper (Group q) = false
  /\ strings.hasUpper (Version q) = false
  /\ strings.hasUpper (Resource q) = false.

(** Mappers to run the resolver on. *)
Module Mappers.

(** Knows nothing: every query is answered by the zero value and an
    error. *)
Definition none : RESTMapper :=
  {| ResourceFor := fun _ => (zeroGVR, Some "no match") |}.

(** Knows the listed references and answers a query by the first one with
    the query's group and resource and, when the query has a version, that
    version; the first listed version of a resource is the preferred
    one. *)
Definition matches (q k : GroupVersionResource) : bool :=
  String.eqb (Group q) (Group k) && String.eqb (Resource q) (Resource k)
  && ((String.length (Version q) =? 0)%nat || String.eqb (Version q) (Version k)).

Definition ofList (known : list GroupVersionResource) : RESTMapper :=
  {| ResourceFor := fun q =>
       match List.find (matches q) known with
       | Some k => (k, None)
       | None => (zeroGVR, Some "no match")
       end |}.

(** Knows the listed references and answers a query by the first one with
    the query's group and resource, whatever version is asked for: it
    serves the version it has. *)
Definition sameKind (q k : GroupVersionResource) : bool :=
  String.eqb (Group q) (Group k) && String.eqb (Resource q) (Resource k).

Definition lenient (known : list GroupVersionResource) : RESTMapper :=
  {| ResourceFor := fun q =>
       match List.find (sameKind q) known with
       | Some k => (k, None)
       | None => (zeroGVR, Some "no match")
       end |}.

(** Answers every query with [answer] and with the error [err]. *)
Definition const (answer : GroupVersionResource) (err : option error)
  : RESTMapper :=
  {| ResourceFor := fun _ => (answer, err) |}.

End Mappers.

(** ** [k8s.io/kubernetes/pkg/util/sets] *)

Module sets.

(** Modelled from the spec: [sets.String] and [sets.NewString] are declared
    in the sets package, which is not among the sources.  The spec: "users:
    set of string, groups: set of string", filled by "the external source" in
    its "arrival order".  A [sets.String] is a Go map from string to the
    empty struct, used as a set: [gset string]; [sets.NewString(items...)]
    inserts the items one after the other. *)
Definition NewString (items : list string) : gset string :=
  list_to_set items.

(** Modelled from the spec: [String.List] is declared in the sets package,
    which is not among the sources.  The spec: the entries are presented
    "in a stable sorted order, independent of arrival order".  The keys of
    the map, in whatever order the map yields them ([elements]), sorted as
    [sort.Strings] sorts: by [<] on Go strings, the bytewise lexicographic
    order, whose reflexive closure is [String.le]. *)
Definition List (s : gset string) : list string :=
  merge_sort String.le (elements s).

End sets.

(** ** [fmt] and string literals *)

Module fmt.

(** A Go interpreted string literal: backslash-n is the newline byte. *)
Fixpoint lit (s : string) : string :=
  match s with
  | EmptyString => EmptyString
  | String c rest =>
      if Ascii.eqb c "\"%char then
        match rest with
        | String c' rest' =>
            if Ascii.eqb c' "n"%char then String "010"%char (lit rest')
            else String c (String c' (lit rest'))
        | EmptyString => String c EmptyString
        end
      else String c (lit rest)
  end.

(** What [fmt] appends for operands no verb consumed. *)
Definition extra (args : list string) : string :=
  match args with
  | [] => ""
  | _ => "%!(EXTRA "
         +:+ strings.Join (List.map (fun a => "string=" +:+ a) args) ", "
         +:+ ")"
  end.

(** [fmt.Sprintf] on a format whose only verb is [%s], with string
    operands: each [%s] is replaced by the next operand, as it is. *)
Fixpoint Sprintf (format : string) (args : list string) : string :=
  match format with
  | EmptyString => extra args
  | String c rest =>
      if Ascii.eqb c "%"%char then
        match rest with
        | String c' rest' =>
            if Ascii.eqb c' "s"%char then
              match args with
              | a :: args' => a +:+ Sprintf rest' args'
              | [] => "%!s(MISSING)" +:+ Sprintf rest' []
              end
            else String c (String c' (Sprintf rest' args))
        | EmptyString => "%!(NOVERB)" +:+ extra args
        end
      else String c (Sprintf rest args)
  end.

End fmt.

(** ** [github.com/openshift/origin/pkg/authorization/api] *)

Module authorizationapi.

(** Modelled from the spec: the structs of this package are not among the
    sources; the command fills and reads the fields below.  The spec:
    "AuthorizationQuery: {verb: string, group: string, resource: string}". *)
Record AuthorizationAttributes : Type := {
  Verb : string;
  Group : string;
  Resource : string
}.

(** Modelled from the spec: "the query wrapped in a cluster-scope request
    envelope". *)
Record ResourceAccessReview : Type := {
  Action : AuthorizationAttributes
}.

(** Modelled from the spec: "the same query wrapped in a namespace-scope
    envelope"; the namespace is passed to the call. *)
Record LocalResourceAccessReview : Type := {
  LocalAction : AuthorizationAttributes
}.

(** Modelled from the spec: "ReviewResult: {namespace: string, users: set
    of string, groups: set of string}". *)
Record ResourceAccessReviewResponse : Type := {
  Namespace : string;
  Users : gset string;
  Groups : gset string
}.

#[global] Instance AuthorizationAttributes_eq_dec :
  EqDecision AuthorizationAttributes.
Proof. solve_decision. Defined.

#[global] Instance ResourceAccessReview_eq_dec :
  EqDecision ResourceAccessReview.
Proof. solve_decision. Defined.

#[global] Instance LocalResourceAccessReview_eq_dec :
  EqDecision LocalResourceAccessReview.
Proof. solve_decision. Defined.

End authorizationapi.

(** ** [github.com/openshift/origin/pkg/client] *)

Module client.

(** Modelled from the spec: [client.Client] is declared in the client
    package, which is not among the sources.  The spec: "reviewClusterWide
    (AuthorizationQuery) -> (ReviewResult, error) and reviewNamespaceScoped
    (namespace, AuthorizationQuery) -> (ReviewResult, error)".  These are the
    two operations the command uses, [ResourceAccessReviews().Create(review)]
    and [LocalResourceAccessReviews(namespace).Create(review)]; each returns
    a response and an error that may be nil.  The server behind them is not
    part of the command. *)
Record Client : Type := {
  ResourceAccessReviews_Create :
    authorizationapi.ResourceAccessReview ->
    authorizationapi.ResourceAccessReviewResponse * option error;
  LocalResourceAccessReviews_Create :
    string -> authorizationapi.LocalResourceAccessReview ->
    authorizationapi.ResourceAccessReviewResponse * option error
}.

End client.

(** ** The command *)

Record whoCanOptions : Type := {
  allNamespaces : bool;
  bindingNamespace : string;
  client : client.Client;
  verb : string;
  resource : GroupVersionResource
}.

(** What [run] does to the outside, in order. *)
Inductive Event : Type :=
| ClusterReview (review : authorizationapi.ResourceAccessReview)
| LocalReview (namespace : string)
              (review : authorizationapi.LocalResourceAccessReview)
| Printf (format : string) (args : list string).

#[global] Instance Event_eq_dec : EqDecision Event.
Proof. solve_decision. Defined.

(** [fmt.Printf(format, args...)]: standard output is the log of these
    calls. *)
Definition printf (format : string) (args : list string) : Logged Event unit :=
  emit (Printf (fmt.lit format) args).

(** The query, lines 93-97. *)
Definition authorizationAttributes (o : whoCanOptions)
  : authorizationapi.AuthorizationAttributes :=
  {| authorizationapi.Verb := verb o;
     authorizationapi.Group := Group (resource o);
     authorizationapi.Resource := Resource (resource o) |}.

(** Lines 117-120. *)
Definition resourceDisplay (o : whoCanOptions) : string :=
  if (0 <? String.length (Group (resource o)))%nat
  then Resource (resource o) +:+ "." +:+ Group (resource o)
  else Resource (resource o).

Section Run.

(** [kapi.NamespaceAll], a constant of the Kubernetes API package, which
    is not among the sources (there it is the empty string). *)
Variable NamespaceAll : string.

(** [whoCanOptions.run] (who_can.go, lines 92-137); the result is the
    returned error, [None] for nil. *)
Definition run (o : whoCanOptions) : Logged Event (option error) :=
  (let* (resourceAccessReviewResponse, err) :=
     if allNamespaces o then
       let review := {| authorizationapi.Action := authorizationAttributes o |} in
       let* _ := emit (ClusterReview review) in
       lret (client.ResourceAccessReviews_Create (client o) review)
     else
       let review :=
         {| authorizationapi.LocalAction := authorizationAttributes o |} in
       let* _ := emit (LocalReview (bindingNamespace o) review) in
       lret (client.LocalResourceAccessReviews_Create
               (client o) (bindingNamespace o) review) in
   match err with
   | Some e => lret (Some e)
   | None =>
       let* _ :=
         if String.eqb (authorizationapi.Namespace resourceAccessReviewResponse)
                       NamespaceAll
         then printf "Namespace: <all>\n" []
         else printf "Namespace: %s\n"
                [authorizationapi.Namespace resourceAccessReviewResponse] in
       let* _ := printf "Verb:      %s\n" [verb o] in
       let* _ := printf "Resource:  %s\n\n" [resourceDisplay o] in
       let* _ :=
         if (size (authorizationapi.Users resourceAccessReviewResponse) =? 0)%nat
         then printf "Users:  none\n\n" []
         else printf "Users:  %s\n\n"
                [strings.Join
                   (sets.List (authorizationapi.Users resourceAccessReviewResponse))
                   (fmt.lit "\n        ")] in
       let* _ :=
         if (size (authorizationapi.Groups resourceAccessReviewResponse) =? 0)%nat
         then printf "Groups: none\n\n" []
         else printf "Groups: %s\n\n"
                [strings.Join
                   (sets.List (authorizationapi.Groups resourceAccessReviewResponse))
                   (fmt.lit "\n        ")] in
       lret None
   end)%logged.

End Run.

(** The answer of the review operation that [run] selects (lines 101-105). *)
Definition reviewAnswer (o : whoCanOptions)
  : authorizationapi.ResourceAccessReviewResponse * option error :=
  if allNamespaces o then
    client.ResourceAccessReviews_Create
      (client o) {| authorizationapi.Action := authorizationAttributes o |}
  else
    client.LocalResourceAccessReviews_Create
      (client o) (bindingNamespace o)
      {| authorizationapi.LocalAction := authorizationAttributes o |}.

(** The call that asks for it. *)
Definition reviewCall (o : whoCanOptions) : Event :=
  if allNamespaces o then
    ClusterReview {| authorizationapi.Action := authorizationAttributes o |}
  else
    LocalReview (bindingNamespace o)
      {| authorizationapi.LocalAction := authorizationAttributes o |}.

(** The [Printf] call of lines 111-115. *)
Definition namespaceLine
  (NamespaceAll : string) (resp : authorizationapi.ResourceAccessReviewResponse)
  : Event :=
  if String.eqb (authorizationapi.Namespace resp) NamespaceAll
  then Printf (fmt.lit "Namespace: <all>\n") []
  else Printf (fmt.lit "Namespace: %s\n") [authorizationapi.Namespace resp].

(** The [Printf] call of lines 124-128 and of lines 130-134, which differ in
    their two formats. *)
Definition principalsSection (none some : string) (s : gset string) : Event :=
  if (size s =? 0)%nat
  then Printf (fmt.lit none) []
  else Printf (fmt.lit some) [strings.Join (sets.List s) (fmt.lit "\n        ")].

(** The log of a run that gets [resp] without an error. *)
Definition report
  (NamespaceAll : string) (o : whoCanOptions)
  (resp : authorizationapi.ResourceAccessReviewResponse) : list Event :=
  [ reviewCall o;
    namespaceLine NamespaceAll resp;
    Printf (fmt.lit "Verb:      %s\n") [verb o];
    Printf (fmt.lit "Resource:  %s\n\n") [resourceDisplay o];
    principalsSection "Users:  none\n\n" "Users:  %s\n\n"
      (authorizationapi.Users resp);
    principalsSection "Groups: none\n\n" "Groups: %s\n\n"
      (authorizationapi.Groups resp) ].

(** [l] lists the members of [s] once each, in ascending bytewise order. *)
Definition sortedListing (l : list string) (s : gset string) : Prop :=
  StronglySorted String.le l /\ NoDup l /\ forall x, x ∈ l <-> x ∈ s.

(** ** Reading the log of a run *)

Definition isReview (e : Event) : bool :=
  match e with
  | ClusterReview _ | LocalReview _ _ => true
  | Printf _ _ => false
  end.

Definition isPrintf (e : Event) : bool := negb (isReview e).

(** The review calls of a log, and its [Printf] calls: the sections of the
    report. *)
Definition reviews (log : list Event) : list Event := List.filter isReview log.
Definition sections (log : list Event) : list Event := List.filter isPrintf log.

(** The text one event writes to standard output. *)
Definition rendered (e : Event) : string :=
  match e with
  | Printf format args => fmt.Sprintf format args
  | _ => ""
  end.

(** Standard output after the events of a log. *)
Definition stdout (log : list Event) : string :=
  List.fold_right (fun e out => rendered e +:+ out) "" log.

(** The [n]-th section of a report (from 0), and its text. *)
Definition section (n : nat) (log : list Event) : option Event :=
  List.nth_error (sections log) n.

Definition sectionText (n : nat) (log : list Event) : string :=
  match section n log with
  | Some e => rendered e
  | None => ""
  end.

(** The heading of a section: the text of its format before the colon. *)
Fixpoint beforeColon (s : string) : string :=
  match s with
  | EmptyString => EmptyString
  | String c rest =>
      if Ascii.eqb c ":"%char then EmptyString else String c (beforeColon rest)
  end.

Definition heading (e : Event) : string :=
  match e with
  | Printf format _ => beforeColon format
  | _ => ""
  end.

(** [s] ends with two newline bytes: its last line is followed by an empty
    line. *)
Fixpoint endsWithBlankLine (s : string) : bool :=
  match s with
  | EmptyString => false
  | String c rest =>
      match rest with
      | String c' EmptyString =>
          Ascii.eqb c "010"%char && Ascii.eqb c' "010"%char
      | _ => endsWithBlankLine rest
      end
  end.

(** [s] ends with a newline byte. *)
Fixpoint endsWithNewline (s : string) : bool :=
  match s with
  | EmptyString => false
  | String c rest =>
      match rest with
      | EmptyString => Ascii.eqb c "010"%char
      | _ => endsWithNewline rest
      end
  end.

(** A section is followed by a blank line when its format ends with one. *)
Definition blankLineAfter (e : Event) : bool :=
  match e with
  | Printf format _ => endsWithBlankLine format
  | _ => false
  end.

(** Clients and invocations to run the command on. *)
Module Clients.

(** Answers every review with [resp]. *)
Definition answering (resp : authorizationapi.ResourceAccessReviewResponse)
  : client.Client :=
  {| client.ResourceAccessReviews_Create := fun _ => (resp, None);
     client.LocalResourceAccessReviews_Create := fun _ _ => (resp, None) |}.

(** Fails every review with the error [e]; the response is the empty one
    the client allocates before the request. *)
Definition failing (e : error) : client.Client :=
  let empty := {| authorizationapi.Namespace := "";
                  authorizationapi.Users := ∅;
                  authorizationapi.Groups := ∅ |} in
  {| client.ResourceAccessReviews_Create := fun _ => (empty, Some e);
     client.LocalResourceAccessReviews_Create := fun _ _ => (empty, Some e) |}.

Definition pods : GroupVersionResource :=
  {| Group := ""; Version := "v1"; Resource := "pods" |}.

Definition builds : GroupVersionResource :=
  {| Group := "build.openshift.io"; Version := "v1"; Resource := "builds" |}.

(** [who-can get pods] in namespace default: alice, and the groups zeta and
    alpha, supplied in that order. *)
Definition getPods : whoCanOptions :=
  {| allNamespaces := false;
     bindingNamespace := "default";
     client := answering
                 {| authorizationapi.Namespace := "default";
                    authorizationapi.Users := sets.NewString ["alice"];
                    authorizationapi.Groups := sets.NewString ["zeta"; "alpha"] |};
     verb := "get";
     resource := pods |}.

(** [who-can create builds --all-namespaces], nobody but the admins. *)
Definition createBuildsEverywhere : whoCanOptions :=
  {| allNamespaces := true;
     bindingNamespace := "default";
     client := answering
                 {| authorizationapi.Namespace := "";
                    authorizationapi.Users := ∅;
                    authorizationapi.Groups := sets.NewString ["system:admins"] |};
     verb := "create";
     resource := builds |}.

(** The server refuses. *)
Definition forbidden : whoCanOptions :=
  {| allNamespaces := false;
     bindingNamespace := "default";
     client := failing "forbidden";
     verb := "get";
     resource := pods |}.

End Clients.

(** ** The rest of the command: [complete] and the [Run] closure *)

Module clientcmd.

(** Modelled from the spec: [clientcmd.Factory] is declared in the clientcmd
    package, which is not among the sources; the command calls three of its
    methods.  The spec: the mapper and the network client are "externally
    supplied", and the "default scope is the caller's current namespace,
    supplied by the excluded layer".  [Object] yields the REST mapper (the
    typer it yields too is dropped by the command), [Clients] the client (of
    its three results the command keeps the first and the error),
    [DefaultNamespace] the namespace (of its three results the command keeps
    the first and the error). *)
Record Factory : Type := {
  Object : RESTMapper;
  Clients : client.Client * option error;
  DefaultNamespace : string * option error
}.

End clientcmd.

(** What an invocation of the command does to the outside, in order: the
    calls on the factory, the lookups on the mapper, and the events of
    [run]. *)
Inductive CmdEvent : Type :=
| CallObject
| CallClients
| CallDefaultNamespace
| MapperLookup (q : GroupVersionResource)
| RunEvent (e : Event).

(** A computation with its own kind of events, run inside one that logs
    another kind. *)
Definition embed {E E' A} (inj : E -> E') (c : Logged E A) : Logged E' A :=
  fun log => let (a, l) := c [] in (a, log ++ List.map inj l).

(** The message of line 64. *)
Definition twoArguments : error :=
  "you must specify two arguments: verb and resource".

(** [whoCanOptions.complete] (who_can.go, lines 62-73).  The receiver is a
    pointer: the result is the returned error and the options as the call
    leaves them. *)
Definition complete `{strings.Lowering}
  (f : clientcmd.Factory) (args : list string) (o : whoCanOptions)
  : Logged CmdEvent (option error * whoCanOptions) :=
  (if negb (length args =? 2)%nat then lret (Some twoArguments, o)
   else
     let* _ := emit CallObject in
     let restMapper := clientcmd.Object f in
     let o1 := {| allNamespaces := allNamespaces o;
                  bindingNamespace := bindingNamespace o;
                  client := client o;
                  verb := List.nth 0 args "";
                  resource := resource o |} in
     let* r := embed MapperLookup (resourceFor restMapper (List.nth 1 args "")) in
     let o2 := {| allNamespaces := allNamespaces o1;
                  bindingNamespace := bindingNamespace o1;
                  client := client o1;
                  verb := verb o1;
                  resource := r |} in
     lret (None, o2))%logged.

(** How an invocation ends: [kcmdutil.CheckErr] has ended the process with
    an error, or the closure has returned. *)
Inductive Outcome : Type :=
| Fatal (e : error)
| Done.

(** Modelled from the spec: [kcmdutil.CheckErr] is declared in the kubectl
    utilities, which are not among the sources.  The spec: such an error is
    "fatal, surfaced verbatim to the user, non-zero exit"; a nil error lets
    the command go on.  [k] is the rest of the closure. *)
Definition CheckErr {E} (err : option error) (k : Logged E Outcome)
  : Logged E Outcome :=
  match err with
  | Some e => lret (Fatal e)
  | None => k
  end.

Section Command.

(** [strings.ToLower], as for [resourceFor]. *)
Context `{lowering : strings.Lowering}.

(** [kapi.NamespaceAll], as for [run]. *)
Variable NamespaceAll : string.

(** [kcmdutil.UsageError(cmd, msg)], of the kubectl utilities, which are not
    among the sources: the error made of a message for this command. *)
Variable UsageError : string -> error.

(** The [Run] closure of the command that [NewCmdWhoCan] builds (who_can.go,
    lines 40-54).  [options] is the value the closure captures, as the flags
    have set it ([--all-namespaces] sets [allNamespaces]); [args] are the
    positional arguments. *)
Definition NewCmdWhoCan_Run
  (f : clientcmd.Factory) (options : whoCanOptions) (args : list string)
  : Logged CmdEvent Outcome :=
  (let* (err, options) := complete f args options in
   CheckErr (option_map UsageError err)
     (let* _ := emit CallClients in
      let (c, err) := clientcmd.Clients f in
      let options := {| allNamespaces := allNamespaces options;
                        bindingNamespace := bindingNamespace options;
                        client := c;
                        verb := verb options;
                        resource := resource options |} in
      CheckErr err
        (let* _ := emit CallDefaultNamespace in
         let (ns, err) := clientcmd.DefaultNamespace f in
         let options := {| allNamespaces := allNamespaces options;
                           bindingNamespace := ns;
                           client := client options;
                           verb := verb options;
                           resource := resource options |} in
         CheckErr err
           (let* err := embed RunEvent (run NamespaceAll options) in
            CheckErr err (lret Done)))))%logged.

End Command.

(** The options with which the closure calls [run], when it gets there. *)
Definition completed `{strings.Lowering}
  (f : clientcmd.Factory) (options : whoCanOptions) (args : list string)
  : whoCanOptions :=
  {| allNamespaces := allNamespaces options;
     bindingNamespace := fst (clientcmd.DefaultNamespace f);
     client := fst (clientcmd.Clients f);
     verb := List.nth 0 args "";
     resource := resolve (clientcmd.Object f) (List.nth 1 args "") |}.

(** What the closure has logged when [f.Clients()] returns: the call for
    the mapper, the lookups of the resolver and the call for the client. *)
Definition resolutionEvents `{strings.Lowering}
  (f : clientcmd.Factory) (args : list string)
  : list CmdEvent :=
  CallObject
  :: List.map MapperLookup (lookups (clientcmd.Object f) (List.nth 1 args ""))
  ++ [CallClients].

(** ** Reading the log of an invocation *)

Definition isRunEvent (e : CmdEvent) : bool :=
  match e with RunEvent _ => true | _ => false end.

Definition isMapperLookup (e : CmdEvent) : bool :=
  match e with MapperLookup _ => true | _ => false end.

Definition isRunReview (e : CmdEvent) : bool :=
  match e with RunEvent r => isReview r | _ => false end.

Definition isRunPrintf (e : CmdEvent) : bool :=
  match e with RunEvent r => isPrintf r | _ => false end.

(** The events of [run] in the log of an invocation. *)
Definition runEvents (log : list CmdEvent) : list Event :=
  List.flat_map (fun e => match e with RunEvent r => [r] | _ => [] end) log.

(** [s] has a newline byte. *)
Fixpoint hasNewline (s : string) : bool :=
  match s with
  | EmptyString => false
  | String c rest => Ascii.eqb c "010"%char || hasNewline rest
  end.

(** Factories to run the command on. *)
Module Factories.

(** Hands out the mapper and the client, and the namespace default. *)
Definition working (mapper : RESTMapper) (c : client.Client)
  : clientcmd.Factory :=
  {| clientcmd.Object := mapper;
     clientcmd.Clients := (c, None);
     clientcmd.DefaultNamespace := ("default", None) |}.

(** Has no configuration to make a client from. *)
Definition noClient (mapper : RESTMapper) : clientcmd.Factory :=
  {| clientcmd.Object := mapper;
     clientcmd.Clients := (Clients.failing "no client", Some "missing config");
     clientcmd.DefaultNamespace := ("default", None) |}.

(** Cannot tell the current namespace. *)
Definition noNamespace (mapper : RESTMapper) (c : client.Client)
  : clientcmd.Factory :=
  {| clientcmd.Object := mapper;
     clientcmd.Clients := (c, None);
     clientcmd.DefaultNamespace := ("", Some "no context") |}.

(** The options of a command that has not run yet, with the flag as given;
    its client is not set yet, and in its place stands one that fails. *)
Definition fresh (allNamespacesFlag : bool) : whoCanOptions :=
  {| allNamespaces := allNamespacesFlag;
     bindingNamespace := "";
     client := Clients.failing "nil client";
     verb := "";
     resource := zeroGVR |}.

(** [kcmdutil.UsageError] as the kubectl utilities format it, for the
    command path [oadm policy who-can]. *)
Definition usage (msg : string) : error :=
  msg +:+ fmt.lit "\nSee 'oadm policy who-can -h' for help and examples.".

Definition podsMapper : RESTMapper := Mappers.ofList [Clients.pods; Clients.builds].

Definition alice : authorizationapi.ResourceAccessReviewResponse :=
  {| authorizationapi.Namespace := "default";
     authorizationapi.Users := sets.NewString ["alice"];
     authorizationapi.Groups := ∅ |}.

End Factories.

(** * Properties of the resolver *)

Section Properties.

(** The properties hold whatever [strings.ToLower] is, as long as it has the
    three properties of the class. *)
Context `{lowering : strings.Lowering}.

Section Resolver.

Variable mapper : RESTMapper.
Variable resourceArg : string.

(** [resourceFor] run on an empty log, by cases on the candidate and on
    the first answer. *)
Lemma resourceFor_cases :
  resourceFor mapper resourceArg [] =
  match fullySpecified resourceArg with
  | Some f =>
      if IsEmpty (fst (ResourceFor mapper f))
      then (secondStage mapper resourceArg,
            [f; groupResourceQuery resourceArg])
      else (fst (ResourceFor mapper f), [f])
  | None => (secondStage mapper resourceArg, [groupResourceQuery resourceArg])
  end.
Proof.
  unfold resourceFor, secondStage, fullySpecified, groupResourceQuery.
  destruct (ParseResourceArg (strings.ToLower resourceArg)) as [[f|] gr];
    cbn [fst snd];
    unfold lbind, callResourceFor, lbind, emit, lret; cbn.
  - destruct (ResourceFor mapper f) as [g e]; cbn.
    destruct (IsEmpty g); [|reflexivity].
    destruct (ResourceFor mapper (WithVersion gr "")) as [g' [e'|]];
      reflexivity.
  - destruct (ResourceFor mapper (WithVersion gr "")) as [g' [e'|]];
      reflexivity.
Qed.

Lemma resolve_first_stage f :
  fullySpecified resourceArg = Some f ->
  IsEmpty (fst (ResourceFor mapper f)) = false ->
  resolve mapper resourceArg = fst (ResourceFor mapper f)
  /\ lookups mapper resourceArg = [f].
Proof.
  intros Hf Hne. unfold resolve, lookups.
  rewrite resourceFor_cases, Hf, Hne. split; reflexivity.
Qed.

Lemma resolve_second_stage :
  IsEmpty (fullySpecifiedAnswer mapper resourceArg) = true ->
  resolve mapper resourceArg = secondStage mapper resourceArg
  /\ lookups mapper resourceArg =
     match fullySpecified resourceArg with
     | Some f => [f; groupResourceQuery resourceArg]
     | None => [groupResourceQuery resourceArg]
     end.
Proof.
  unfold fullySpecifiedAnswer, resolve, lookups.
  rewrite resourceFor_cases.
  destruct (fullySpecified resourceArg) as [f|]; [intros ->|intros _];
    split; reflexivity.
Qed.

Lemma resolve_degenerate e :
  IsEmpty (fullySpecifiedAnswer mapper resourceArg) = true ->
  snd (ResourceFor mapper (groupResourceQuery resourceArg)) = Some e ->
  resolve mapper resourceArg = degenerate resourceArg.
Proof.
  intros H1 H2. destruct (resolve_second_stage H1) as [-> _].
  unfold secondStage. rewrite H2. reflexivity.
Qed.

End Resolver.

(** The queries are read off the lowercased token, so tokens that differ in
    case only make the same lookups. *)
Lemma lookups_case_insensitive (mapper : RESTMapper) (a b : string) :
  strings.ToLower a = strings.ToLower b ->
  lookups mapper a = lookups mapper b.
Proof.
  intros H. unfold lookups. rewrite !resourceFor_cases.
  unfold fullySpecified, groupResourceQuery. rewrite H.
  destruct (fst (ParseResourceArg (strings.ToLower b))) as [f|]; [|reflexivity].
  destruct (IsEmpty (fst (ResourceFor mapper f))); reflexivity.
Qed.

(** ** Splitting at dots *)

Lemma cutDot_no_dot s : strings.hasDot s = false -> strings.cutDot s = None.
Proof.
  induction s as [|c s IH]; [reflexivity|].
  cbn. destruct (Ascii.eqb c "."); [discriminate|].
  intros H. rewrite (IH H). reflexivity.
Qed.

Lemma cutDot_not_upper s a b :
  strings.cutDot s = Some (a, b) ->
  strings.hasUpper s = false ->
  strings.hasUpper a = false /\ strings.hasUpper b = false.
Proof.
  revert a b. induction s as [|c s IH]; intros a b; cbn; [discriminate|].
  destruct (Ascii.eqb c ".").
  - intros [= <- <-] [_ H]%orb_false_iff. split; [reflexivity|exact H].
  - destruct (strings.cutDot s) as [[a' b']|]; [|discriminate].
    intros [= <- <-] [Hc H]%orb_false_iff.
    destruct (IH a' b' eq_refl H) as [Ha Hb].
    split; [cbn; rewrite Hc, Ha; reflexivity|exact Hb].
Qed.

(** ** The parser *)

(** What the parser makes of a token without a dot. *)
Lemma ParseResourceArg_no_dot s :
  strings.hasDot s = false ->
  ParseResourceArg s = (None, {| grGroup := ""; grResource := s |}).
Proof.
  intros H. unfold ParseResourceArg, ParseGroupResource.
  rewrite (cutDot_no_dot s H). reflexivity.
Qed.

(** The candidates read off a string without upper-case bytes have none. *)
Lemma ParseResourceArg_lowerCased s :
  strings.hasUpper s = false ->
  (forall f, fst (ParseResourceArg s) = Some f -> lowerCased f)
  /\ lowerCased (WithVersion (snd (ParseResourceArg s)) "").
Proof.
  intros H. unfold ParseResourceArg, ParseGroupResource, lowerCased. cbn [fst snd].
  destruct (strings.cutDot s) as [[r rest]|] eqn:E1.
  - destruct (cutDot_not_upper s r rest E1 H) as [Hr Hrest]. split.
    + intros f. destruct (strings.cutDot rest) as [[v g]|] eqn:E2; [|discriminate].
      intros [= <-]. cbn.
      destruct (cutDot_not_upper rest v g E2 Hrest) as [Hv Hg]. auto.
    + cbn. auto.
  - split; [discriminate|]. cbn. auto.
Qed.

Lemma IsEmpty_zero g : IsEmpty g = true <-> g = zeroGVR.
Proof.
  unfold zeroGVR. destruct g as [[|? ?] [|? ?] [|? ?]]; cbn; split; congruence.
Qed.

(** * The resolver's claims *)

(** C1, amended.  Resolution never fails: [resourceFor] has no error
    result, and when the fully-qualified lookup yields no reference (the
    token has no fully-qualified candidate, or the mapper answers it with
    the empty reference; the error that comes with the answer is not looked
    at) and the group-resource lookup returns an error, the result is the
    reference whose resource is the token as given and whose group and
    version are empty. *)
Theorem resourceFor_degrades_to_token
  (mapper : RESTMapper) (resourceArg : string) (e : error) :
  IsEmpty (fullySpecifiedAnswer mapper resourceArg) = true ->
  snd (ResourceFor mapper (groupResourceQuery resourceArg)) = Some e ->
  resolve mapper resourceArg =
  {| Group := ""; Version := ""; Resource := resourceArg |}.
Proof. apply resolve_degenerate. Qed.

(** C2, amended.  When the token has a fully-qualified candidate and the
    mapper answers it with a non-empty reference, [resourceFor] returns that
    answer and makes no other lookup: the group-resource query, which asks
    for the preferred version, is never made.  The resolved version is the
    version of that answer; it is the requested one exactly when the mapper
    answered with the version it was asked for. *)
Theorem resourceFor_fully_specified_precedence
  (mapper : RESTMapper) (resourceArg : string)
  (f g : GroupVersionResource) (e : option error) :
  fullySpecified resourceArg = Some f ->
  ResourceFor mapper f = (g, e) ->
  IsEmpty g = false ->
  resolve mapper resourceArg = g
  /\ lookups mapper resourceArg = [f]
  /\ (Version (resolve mapper resourceArg) = Version f <-> Version g = Version f).
Proof.
  intros Hf Hg Hne.
  destruct (resolve_first_stage mapper resourceArg f Hf) as [Hr Hl].
  - rewrite Hg. exact Hne.
  - rewrite Hg in Hr. cbn in Hr. rewrite Hr. auto.
Qed.

(** C6.  A token without a dot has no fully-qualified candidate; it is
    parsed as a bare resource with empty group, and the only lookup made is
    the group-resource one, for the lowercased token with empty group and
    version.  When that lookup returns an error the result has an empty
    group and the token as its resource; otherwise it is the mapper's
    answer. *)
Theorem resourceFor_bare_token (mapper : RESTMapper) (resourceArg : string) :
  strings.hasDot resourceArg = false ->
  let bare :=
    {| Group := ""; Version := ""; Resource := strings.ToLower resourceArg |} in
  fullySpecified resourceArg = None
  /\ snd (ParseResourceArg (strings.ToLower resourceArg)) =
     {| grGroup := ""; grResource := strings.ToLower resourceArg |}
  /\ lookups mapper resourceArg = [bare]
  /\ (forall e : error,
        snd (ResourceFor mapper bare) = Some e ->
        resolve mapper resourceArg =
        {| Group := ""; Version := ""; Resource := resourceArg |})
  /\ (snd (ResourceFor mapper bare) = None ->
      resolve mapper resourceArg = fst (ResourceFor mapper bare)).
Proof.
  intros Hdot bare.
  assert (Hp : ParseResourceArg (strings.ToLower resourceArg) =
               (None, {| grGroup := "";
                         grResource := strings.ToLower resourceArg |})).
  { apply ParseResourceArg_no_dot. rewrite strings.ToLower_hasDot. exact Hdot. }
  assert (Hf : fullySpecified resourceArg = None).
  { unfold fullySpecified. rewrite Hp. reflexivity. }
  assert (Hq : groupResourceQuery resourceArg = bare).
  { unfold groupResourceQuery. rewrite Hp. reflexivity. }
  assert (He : IsEmpty (fullySpecifiedAnswer mapper resourceArg) = true).
  { unfold fullySpecifiedAnswer. rewrite Hf. reflexivity. }
  destruct (resolve_second_stage mapper resourceArg He) as [Hr Hl].
  rewrite Hf, Hq in Hl. unfold secondStage in Hr. rewrite Hq in Hr.
  repeat split.
  - exact Hf.
  - rewrite Hp. reflexivity.
  - exact Hl.
  - intros e Herr. rewrite Hr, Herr. reflexivity.
  - intros Hok. rewrite Hr, Hok. reflexivity.
Qed.

(** C9.  The token is lowercased for parsing and for the lookups only: the
    lookups depend on the token through its lowercased form alone, and no
    query sent to the mapper has one of the bytes 'A'..'Z', while the
    reference of last resort carries the token as it was given.  When every
    lookup fails, the result is the reference built from the lowercased
    token only if lowercasing leaves the token as it is: for a token with an
    upper-case letter, one that [strings.ToLower] changes (as it does every
    token with one of 'A'..'Z'), the two differ. *)
Theorem resourceFor_degenerate_keeps_case
  (mapper : RESTMapper) (resourceArg : string) (e : error) :
  IsEmpty (fullySpecifiedAnswer mapper resourceArg) = true ->
  snd (ResourceFor mapper (groupResourceQuery resourceArg)) = Some e ->
  Resource (resolve mapper resourceArg) = resourceArg
  /\ (forall other,
        strings.ToLower other = strings.ToLower resourceArg ->
        lookups mapper other = lookups mapper resourceArg)
  /\ (forall q, q ∈ lookups mapper resourceArg -> lowerCased q)
  /\ (resolve mapper resourceArg = degenerate (strings.ToLower resourceArg)
      <-> strings.ToLower resourceArg = resourceArg)
  /\ (strings.ToLower resourceArg <> resourceArg
      \/ strings.hasUpper resourceArg = true ->
      Resource (resolve mapper resourceArg) <> strings.ToLower resourceArg
      /\ resolve mapper resourceArg <> degenerate (strings.ToLower resourceArg)).
Proof.
  intros H1 H2.
  pose proof (resolve_degenerate mapper resourceArg e H1 H2) as Hr.
  destruct (resolve_second_stage mapper resourceArg H1) as [_ Hl].
  destruct (ParseResourceArg_lowerCased
              (strings.ToLower resourceArg)
              (strings.ToLower_not_upper resourceArg))
    as [Hfull Hgr].
  assert (Hiff : degenerate resourceArg = degenerate (strings.ToLower resourceArg)
                 <-> strings.ToLower resourceArg = resourceArg).
  { unfold degenerate. split; [intros [= Heq]; symmetry; exact Heq|].
    intros ->. reflexivity. }
  rewrite Hr. split; [reflexivity|].
  split; [intros other Ho; apply lookups_case_insensitive; exact Ho|].
  split; [|split; [exact Hiff|]].
  - intros q Hq. rewrite Hl in Hq. fold (fullySpecified resourceArg) in Hfull.
    fold (groupResourceQuery resourceArg) in Hgr.
    destruct (fullySpecified resourceArg) as [f|].
    + apply elem_of_cons in Hq as [->|Hq]; [apply Hfull; reflexivity|].
      apply list_elem_of_singleton in Hq as ->. exact Hgr.
    + apply list_elem_of_singleton in Hq as ->. exact Hgr.
  - intros H.
    assert (Hne : strings.ToLower resourceArg <> resourceArg).
    { destruct H as [H|H]; [exact H|].
      exact (strings.ToLower_changes_upper resourceArg H). }
    split.
    + cbn. congruence.
    + intros Heq. apply Hne, Hiff, Heq.
Qed.

(** C10.  The error of the fully-qualified lookup is dropped: whatever
    error, or none, comes with the answer, a non-empty answer is the result
    and no second lookup is made, and an empty answer sends [resourceFor] to
    the group-resource lookup. *)
Theorem resourceFor_ignores_first_error
  (mapper : RESTMapper) (resourceArg : string)
  (f g : GroupVersionResource) (e : option error) :
  fullySpecified resourceArg = Some f ->
  ResourceFor mapper f = (g, e) ->
  (IsEmpty g = false ->
   resolve mapper resourceArg = g /\ lookups mapper resourceArg = [f])
  /\ (IsEmpty g = true ->
      resolve mapper resourceArg = secondStage mapper resourceArg
      /\ lookups mapper resourceArg = [f; groupResourceQuery resourceArg]).
Proof.
  intros Hf Hg. split; intros Hg'.
  - destruct (resolve_first_stage mapper resourceArg f Hf) as [Hr Hl].
    + rewrite Hg. exact Hg'.
    + rewrite Hg in Hr. auto.
  - destruct (resolve_second_stage mapper resourceArg) as [Hr Hl].
    + unfold fullySpecifiedAnswer. rewrite Hf, Hg. exact Hg'.
    + rewrite Hf in Hl. auto.
Qed.

(** * Properties of the command *)

Section RunLemmas.

Variable NamespaceAll : string.
Variable o : whoCanOptions.

(** [run] on an empty log, by cases on the answer of the review. *)
Lemma run_cases :
  run NamespaceAll o [] =
  match reviewAnswer o with
  | (_, Some e) => (Some e, [reviewCall o])
  | (resp, None) => (None, report NamespaceAll o resp)
  end.
Proof.
  unfold run, reviewAnswer, report, reviewCall, namespaceLine,
    principalsSection, printf.
  unfold lbind, emit, lret.
  destruct (allNamespaces o); cbn [app].
  - destruct (client.ResourceAccessReviews_Create _ _) as [resp [e|]];
      [reflexivity|].
    destruct (String.eqb _ _), (size (authorizationapi.Users resp) =? 0)%nat,
      (size (authorizationapi.Groups resp) =? 0)%nat; reflexivity.
  - destruct (client.LocalResourceAccessReviews_Create _ _ _) as [resp [e|]];
      [reflexivity|].
    destruct (String.eqb _ _), (size (authorizationapi.Users resp) =? 0)%nat,
      (size (authorizationapi.Groups resp) =? 0)%nat; reflexivity.
Qed.

Lemma run_failure resp e :
  reviewAnswer o = (resp, Some e) ->
  run NamespaceAll o [] = (Some e, [reviewCall o]).
Proof. intros H. rewrite run_cases, H. reflexivity. Qed.

Lemma run_success resp :
  reviewAnswer o = (resp, None) ->
  run NamespaceAll o [] = (None, report NamespaceAll o resp).
Proof. intros H. rewrite run_cases, H. reflexivity. Qed.

Lemma run_returns_nil :
  fst (run NamespaceAll o []) = None ->
  reviewAnswer o = (fst (reviewAnswer o), None).
Proof.
  rewrite run_cases. destruct (reviewAnswer o) as [resp [e|]];
    [discriminate|reflexivity].
Qed.

Lemma isReview_reviewCall : isReview (reviewCall o) = true.
Proof. unfold reviewCall. destruct (allNamespaces o); reflexivity. Qed.

Lemma isReview_namespaceLine resp :
  isReview (namespaceLine NamespaceAll resp) = false.
Proof. unfold namespaceLine. destruct (String.eqb _ _); reflexivity. Qed.

Lemma isReview_principalsSection none some s :
  isReview (principalsSection none some s) = false.
Proof. unfold principalsSection. destruct (_ =? _)%nat; reflexivity. Qed.

Lemma reviews_report resp :
  reviews (report NamespaceAll o resp) = [reviewCall o].
Proof.
  unfold reviews, report. cbn [List.filter].
  rewrite isReview_reviewCall, isReview_namespaceLine,
    !isReview_principalsSection.
  reflexivity.
Qed.

Lemma sections_report resp :
  sections (report NamespaceAll o resp) =
  [ namespaceLine NamespaceAll resp;
    Printf (fmt.lit "Verb:      %s\n") [verb o];
    Printf (fmt.lit "Resource:  %s\n\n") [resourceDisplay o];
    principalsSection "Users:  none\n\n" "Users:  %s\n\n"
      (authorizationapi.Users resp);
    principalsSection "Groups: none\n\n" "Groups: %s\n\n"
      (authorizationapi.Groups resp) ].
Proof.
  unfold sections, report, isPrintf. cbn [List.filter].
  rewrite isReview_reviewCall, isReview_namespaceLine,
    !isReview_principalsSection.
  reflexivity.
Qed.

End RunLemmas.

(** ** The sorted listing of a set *)

Lemma List_sortedListing (s : gset string) : sortedListing (sets.List s) s.
Proof.
  unfold sortedListing, sets.List. split; [|split].
  - apply StronglySorted_merge_sort; apply _.
  - rewrite merge_sort_Permutation. apply NoDup_elements.
  - intros x. rewrite merge_sort_Permutation. apply elem_of_elements.
Qed.

(** There is one sorted listing of a set, whatever the sorting algorithm. *)
Lemma sortedListing_unique (l : list string) (s : gset string) :
  sortedListing l s -> l = sets.List s.
Proof.
  intros (Hs & Hn & Hx).
  destruct (List_sortedListing s) as (Hs' & Hn' & Hx').
  apply (StronglySorted_unique String.le); [exact Hs|exact Hs'|].
  apply NoDup_Permutation; [exact Hn|exact Hn'|].
  intros x. rewrite Hx, Hx'. reflexivity.
Qed.

Lemma List_arrival_order (items items' : list string) :
  items ≡ₚ items' ->
  sets.List (sets.NewString items) = sets.List (sets.NewString items').
Proof.
  intros H. unfold sets.NewString.
  rewrite (list_to_set_perm_L (C:=gset string) items items' H). reflexivity.
Qed.

Lemma size_zero_empty (s : gset string) : (size s =? 0)%nat = true <-> s = ∅.
Proof.
  rewrite Nat.eqb_eq. rewrite size_empty_iff. apply leibniz_equiv_iff.
Qed.

Lemma review_in_log (log : list Event) (e : Event) :
  e ∈ log -> isReview e = true -> e ∈ reviews log.
Proof.
  intros Hin He. apply list_elem_of_In. apply List.filter_In.
  split; [apply list_elem_of_In; exact Hin|exact He].
Qed.

Lemma reviews_run (NamespaceAll : string) (o : whoCanOptions) :
  reviews (snd (run NamespaceAll o [])) = [reviewCall o].
Proof.
  rewrite run_cases. destruct (reviewAnswer o) as [resp [e|]]; cbn [snd].
  - unfold reviews. cbn [List.filter]. rewrite isReview_reviewCall. reflexivity.
  - apply reviews_report.
Qed.

(** * The command's claims *)

(** C3.  Every run makes exactly one review call.  It is the cluster-scoped
    one when [allNamespaces] is set, and then no namespace-scoped call is
    made; it is the namespace-scoped one, for [bindingNamespace], when
    [allNamespaces] is not set, and then no cluster-scoped call is made.
    Either call carries the same query: the verb, and the group and the
    resource of the resolved reference. *)
Theorem run_calls_one_review (NamespaceAll : string) (o : whoCanOptions) :
  let log := snd (run NamespaceAll o []) in
  let query := authorizationAttributes o in
  reviews log =
  [ if allNamespaces o
    then ClusterReview {| authorizationapi.Action := query |}
    else LocalReview (bindingNamespace o)
           {| authorizationapi.LocalAction := query |} ]
  /\ ((exists r, ClusterReview r ∈ log) <-> allNamespaces o = true)
  /\ ((exists ns r, LocalReview ns r ∈ log) <-> allNamespaces o = false)
  /\ (forall r, ClusterReview r ∈ log ->
                r = {| authorizationapi.Action := query |})
  /\ (forall ns r, LocalReview ns r ∈ log ->
                   ns = bindingNamespace o
                   /\ r = {| authorizationapi.LocalAction := query |}).
Proof.
  intros log query.
  assert (Hrev : reviews log = [reviewCall o]) by apply reviews_run.
  assert (Hin : reviewCall o ∈ log).
  { assert (H : reviewCall o ∈ reviews log) by (rewrite Hrev; apply list_elem_of_here).
    apply list_elem_of_In, List.filter_In in H as [H _].
    apply list_elem_of_In. exact H. }
  assert (Hone : forall e, e ∈ log -> isReview e = true -> e = reviewCall o).
  { intros e He Hr. pose proof (review_in_log log e He Hr) as H.
    rewrite Hrev in H. apply list_elem_of_singleton in H. exact H. }
  unfold reviewCall in Hrev, Hin, Hone. fold query in Hrev, Hin, Hone.
  split; [exact Hrev|].
  destruct (allNamespaces o); (split; [split|split; [split|split]]).
  - reflexivity.
  - intros _. eexists. exact Hin.
  - intros (ns & r & Hr). specialize (Hone _ Hr eq_refl). discriminate Hone.
  - discriminate.
  - intros r Hr. specialize (Hone _ Hr eq_refl). congruence.
  - intros ns r Hr. specialize (Hone _ Hr eq_refl). discriminate Hone.
  - intros (r & Hr). specialize (Hone _ Hr eq_refl). discriminate Hone.
  - discriminate.
  - reflexivity.
  - intros _. eexists _, _. exact Hin.
  - intros r Hr. specialize (Hone _ Hr eq_refl). discriminate Hone.
  - intros ns r Hr. specialize (Hone _ Hr eq_refl).
    split; congruence.
Qed.

(** C4.  When the review call returns an error, [run] returns that very
    error; the review call is the only thing it has done: there is no second
    call and no [Printf], so standard output is empty. *)
Theorem run_propagates_review_error
  (NamespaceAll : string) (o : whoCanOptions)
  (resp : authorizationapi.ResourceAccessReviewResponse) (e : error) :
  reviewAnswer o = (resp, Some e) ->
  fst (run NamespaceAll o []) = Some e
  /\ snd (run NamespaceAll o []) = [reviewCall o]
  /\ sections (snd (run NamespaceAll o [])) = []
  /\ stdout (snd (run NamespaceAll o [])) = "".
Proof.
  intros H. rewrite (run_failure NamespaceAll o resp e H). cbn [fst snd].
  unfold sections, stdout, isPrintf. cbn [List.filter fold_right].
  rewrite isReview_reviewCall.
  unfold reviewCall. destruct (allNamespaces o); repeat split.
Qed.

Lemma sectionText_principals (none some : string) (s : gset string) :
  (s = ∅ -> rendered (principalsSection none some s) = fmt.Sprintf (fmt.lit none) [])
  /\ (s <> ∅ ->
      rendered (principalsSection none some s) =
      fmt.Sprintf (fmt.lit some)
        [strings.Join (sets.List s) (fmt.lit "\n        ")]).
Proof.
  unfold principalsSection.
  destruct (size s =? 0)%nat eqn:E; split; intros H; try reflexivity.
  - apply size_zero_empty in E. contradiction.
  - apply size_zero_empty in H. congruence.
Qed.

(** C5.  In the report of a review result, the Users section and the Groups
    section read [none] when the set is empty; otherwise they show the
    members of the set joined by a newline (and the eight blanks that align
    the continuation lines), each member once, in ascending order.  The
    listing is a function of the set: the order in which the members were
    supplied does not show. *)
Theorem report_lists_principals_sorted
  (NamespaceAll : string) (o : whoCanOptions)
  (resp : authorizationapi.ResourceAccessReviewResponse) :
  reviewAnswer o = (resp, None) ->
  let log := snd (run NamespaceAll o []) in
  let users := authorizationapi.Users resp in
  let groups := authorizationapi.Groups resp in
  (users = ∅ -> sectionText 3 log = fmt.lit "Users:  none\n\n")
  /\ (users <> ∅ ->
      sectionText 3 log =
      "Users:  " +:+ strings.Join (sets.List users) (fmt.lit "\n        ")
      +:+ fmt.lit "\n\n")
  /\ (groups = ∅ -> sectionText 4 log = fmt.lit "Groups: none\n\n")
  /\ (groups <> ∅ ->
      sectionText 4 log =
      "Groups: " +:+ strings.Join (sets.List groups) (fmt.lit "\n        ")
      +:+ fmt.lit "\n\n")
  /\ sortedListing (sets.List users) users
  /\ sortedListing (sets.List groups) groups
  /\ (forall items items',
        items ≡ₚ items' ->
        sets.List (sets.NewString items) = sets.List (sets.NewString items')).
Proof.
  intros H log users groups. subst log.
  rewrite (run_success NamespaceAll o resp H). cbn [snd].
  unfold sectionText, section. rewrite sections_report. cbn [nth_error].
  fold users groups.
  destruct (sectionText_principals
              "Users:  none\n\n" "Users:  %s\n\n" users) as [Hu0 Hu1].
  destruct (sectionText_principals
              "Groups: none\n\n" "Groups: %s\n\n" groups) as [Hg0 Hg1].
  split; [intros E; rewrite (Hu0 E); reflexivity|].
  split; [intros E; rewrite (Hu1 E); reflexivity|].
  split; [intros E; rewrite (Hg0 E); reflexivity|].
  split; [intros E; rewrite (Hg1 E); reflexivity|].
  split; [apply List_sortedListing|].
  split; [apply List_sortedListing|].
  apply List_arrival_order.
Qed.

(** C7.  The first section of the report is the Namespace line.  It is the
    call that prints the placeholder, [Printf("Namespace: <all>\n")], if and
    only if the namespace of the result is [kapi.NamespaceAll]; otherwise it
    is the call that prints the namespace of the result as it is. *)
Theorem report_namespace_line
  (NamespaceAll : string) (o : whoCanOptions)
  (resp : authorizationapi.ResourceAccessReviewResponse) :
  reviewAnswer o = (resp, None) ->
  let log := snd (run NamespaceAll o []) in
  let ns := authorizationapi.Namespace resp in
  (section 0 log = Some (Printf (fmt.lit "Namespace: <all>\n") [])
   <-> ns = NamespaceAll)
  /\ (ns = NamespaceAll -> sectionText 0 log = fmt.lit "Namespace: <all>\n")
  /\ (ns <> NamespaceAll ->
      section 0 log = Some (Printf (fmt.lit "Namespace: %s\n") [ns])
      /\ sectionText 0 log = "Namespace: " +:+ ns +:+ fmt.lit "\n").
Proof.
  intros H log ns. subst log.
  rewrite (run_success NamespaceAll o resp H). cbn [snd].
  unfold sectionText, section. rewrite sections_report. cbn [nth_error].
  unfold namespaceLine. fold ns.
  destruct (String.eqb ns NamespaceAll) eqn:E.
  - apply String.eqb_eq in E. split; [split; auto|]. split; [reflexivity|].
    intros Hne. contradiction.
  - apply String.eqb_neq in E. split; [split|split].
    + intros Hfmt. discriminate Hfmt.
    + intros Heq. contradiction.
    + intros Heq. contradiction.
    + intros _. split; reflexivity.
Qed.

(** ** Blank lines *)

Lemma endsWithBlankLine_app (a : string) :
  endsWithBlankLine (a +:+ fmt.lit "\n\n") = true.
Proof.
  induction a as [|c a IH]; [reflexivity|].
  destruct a as [|c1 a]; [reflexivity|].
  destruct a as [|c2 a]; exact IH.
Qed.

Lemma blankLineAfter_principals (none some : string) (s : gset string) :
  endsWithBlankLine (fmt.lit none) = true ->
  endsWithBlankLine (fmt.lit some) = true ->
  blankLineAfter (principalsSection none some s) = true.
Proof.
  intros Hn Hs. unfold principalsSection.
  destruct (size s =? 0)%nat; assumption.
Qed.

Lemma app_empty_r (s : string) : s +:+ "" = s.
Proof.
  induction s as [|c s IH]; [reflexivity|].
  change (String c (s +:+ "") = String c s). rewrite IH. reflexivity.
Qed.

(** A line is followed by a blank line when what it shows ends with a
    newline itself. *)
Lemma endsWithBlankLine_line (a : string) :
  endsWithBlankLine (a +:+ fmt.lit "\n") = endsWithNewline a.
Proof.
  induction a as [|c a IH]; [reflexivity|].
  destruct a as [|c1 a].
  - change (Ascii.eqb c "010" && Ascii.eqb "010" "010" = Ascii.eqb c "010").
    rewrite andb_true_r. reflexivity.
  - destruct a as [|c2 a]; exact IH.
Qed.

Lemma endsWithNewline_after (label x : string) :
  endsWithNewline label = false ->
  endsWithNewline (label +:+ x) = endsWithNewline x.
Proof.
  induction label as [|c label IH]; [reflexivity|].
  destruct label as [|c1 label]; intros H.
  - destruct x as [|d x]; [exact H|reflexivity].
  - change (endsWithNewline (String c1 label +:+ x) = endsWithNewline x).
    apply IH. exact H.
Qed.

(** C8, amended.  The report of a run that returns no error has exactly five
    sections, in the order Namespace, Verb, Resource, Users, Groups, and
    standard output is their texts one after the other.  Each of the last
    three sections (Resource, Users and Groups) is followed by a blank line,
    by its format and in the text.  The Namespace and the Verb section end
    with their line: their formats have one newline, and in the text a blank
    line follows only when the verb, or the namespace printed as it is,
    ends with a newline itself. *)
Theorem report_five_sections (NamespaceAll : string) (o : whoCanOptions) :
  fst (run NamespaceAll o []) = None ->
  let log := snd (run NamespaceAll o []) in
  List.map heading (sections log) =
  ["Namespace"; "Verb"; "Resource"; "Users"; "Groups"]
  /\ List.map blankLineAfter (sections log) = [false; false; true; true; true]
  /\ stdout log =
     sectionText 0 log +:+ sectionText 1 log +:+ sectionText 2 log
     +:+ sectionText 3 log +:+ sectionText 4 log
  /\ sectionText 1 log = "Verb:      " +:+ verb o +:+ fmt.lit "\n"
  /\ sectionText 2 log = "Resource:  " +:+ resourceDisplay o +:+ fmt.lit "\n\n"
  /\ endsWithBlankLine (sectionText 2 log) = true
  /\ endsWithBlankLine (sectionText 3 log) = true
  /\ endsWithBlankLine (sectionText 4 log) = true
  /\ endsWithBlankLine (sectionText 1 log) = endsWithNewline (verb o)
  /\ endsWithBlankLine (sectionText 0 log) =
     (let ns := authorizationapi.Namespace (fst (reviewAnswer o)) in
      if String.eqb ns NamespaceAll then false else endsWithNewline ns).
Proof.
  intros H log. subst log.
  pose proof (run_returns_nil NamespaceAll o H) as Hans.
  set (resp := fst (reviewAnswer o)) in Hans.
  rewrite (run_success NamespaceAll o resp Hans). cbn [snd].
  unfold sectionText, section, stdout. rewrite sections_report.
  cbn [nth_error List.map]. unfold report. cbn [fold_right].
  assert (Hr : rendered (reviewCall o) = "").
  { unfold reviewCall. destruct (allNamespaces o); reflexivity. }
  rewrite Hr, app_empty_r.
  split.
  { unfold namespaceLine, principalsSection.
    destruct (String.eqb _ _), (size (authorizationapi.Users resp) =? 0)%nat,
      (size (authorizationapi.Groups resp) =? 0)%nat; reflexivity. }
  split.
  { rewrite !blankLineAfter_principals by reflexivity.
    unfold namespaceLine. destruct (String.eqb _ _); reflexivity. }
  split; [reflexivity|].
  split; [reflexivity|].
  split; [reflexivity|].
  split.
  { exact (endsWithBlankLine_app ("Resource:  " +:+ resourceDisplay o)). }
  unfold principalsSection.
  split.
  - destruct (size (authorizationapi.Users resp) =? 0)%nat; [reflexivity|].
    exact (endsWithBlankLine_app
             ("Users:  " +:+
              strings.Join (sets.List (authorizationapi.Users resp))
                (fmt.lit "\n        "))).
  - split; [|split].
    + destruct (size (authorizationapi.Groups resp) =? 0)%nat; [reflexivity|].
      exact (endsWithBlankLine_app
               ("Groups: " +:+
                strings.Join (sets.List (authorizationapi.Groups resp))
                  (fmt.lit "\n        "))).
    + change (endsWithBlankLine (("Verb:      " +:+ verb o) +:+ fmt.lit "\n") =
              endsWithNewline (verb o)).
      rewrite endsWithBlankLine_line.
      apply endsWithNewline_after. reflexivity.
    + cbv zeta. fold resp. unfold namespaceLine.
      destruct (String.eqb (authorizationapi.Namespace resp) NamespaceAll);
        [reflexivity|].
      change (endsWithBlankLine
                (("Namespace: " +:+ authorizationapi.Namespace resp)
                 +:+ fmt.lit "\n") =
              endsWithNewline (authorizationapi.Namespace resp)).
      rewrite endsWithBlankLine_line.
      apply endsWithNewline_after. reflexivity.
Qed.

(** * More properties of the resolver *)

Lemma lookups_length (mapper : RESTMapper) (resourceArg : string) :
  1 <= length (lookups mapper resourceArg) <= 2.
Proof.
  unfold lookups. rewrite resourceFor_cases.
  destruct (fullySpecified resourceArg) as [f|];
    [destruct (IsEmpty (fst (ResourceFor mapper f)))|]; cbn; lia.
Qed.

(** X1.  [resourceFor] asks the mapper once or twice, never more; every
    query is the fully-qualified candidate or the group-resource query; the
    candidate, when the token has one, is asked first. *)
Theorem resourceFor_lookup_budget (mapper : RESTMapper) (resourceArg : string) :
  (length (lookups mapper resourceArg) = 1 \/ length (lookups mapper resourceArg) = 2)
  /\ (forall q, q ∈ lookups mapper resourceArg ->
                fullySpecified resourceArg = Some q
                \/ q = groupResourceQuery resourceArg)
  /\ (forall f, fullySpecified resourceArg = Some f ->
                List.hd_error (lookups mapper resourceArg) = Some f)
  /\ (fullySpecified resourceArg = None ->
      lookups mapper resourceArg = [groupResourceQuery resourceArg]).
Proof.
  unfold lookups. rewrite resourceFor_cases.
  destruct (fullySpecified resourceArg) as [f|].
  - destruct (IsEmpty (fst (ResourceFor mapper f))); cbn [snd length].
    + split; [right; reflexivity|]. split; [|split].
      * intros q Hq. apply elem_of_cons in Hq as [->|Hq]; [left; reflexivity|].
        apply list_elem_of_singleton in Hq as ->. right; reflexivity.
      * intros f' [= <-]. reflexivity.
      * discriminate.
    + split; [left; reflexivity|]. split; [|split].
      * intros q Hq. apply list_elem_of_singleton in Hq as ->. left; reflexivity.
      * intros f' [= <-]. reflexivity.
      * discriminate.
  - cbn [snd length]. split; [left; reflexivity|]. split; [|split].
    + intros q Hq. apply list_elem_of_singleton in Hq as ->. right; reflexivity.
    + discriminate.
    + reflexivity.
Qed.

(** X2.  What [resourceFor] returns is the mapper's answer to the last query
    it made, as it is, unless that query was the group-resource one and
    came back with an error: then, and only then, the token is wrapped in
    the reference of last resort. *)
Theorem resourceFor_result_provenance
  (mapper : RESTMapper) (resourceArg : string) :
  (exists q, List.last (List.map Some (lookups mapper resourceArg)) None = Some q
             /\ snd (ResourceFor mapper q) = None
             /\ resolve mapper resourceArg = fst (ResourceFor mapper q))
  \/ (exists q e, List.last (List.map Some (lookups mapper resourceArg)) None = Some q
                  /\ snd (ResourceFor mapper q) = Some e
                  /\ ((q = groupResourceQuery resourceArg
                       /\ IsEmpty (fullySpecifiedAnswer mapper resourceArg) = true
                       /\ resolve mapper resourceArg = degenerate resourceArg)
                      \/ (fullySpecified resourceArg = Some q
                          /\ IsEmpty (fst (ResourceFor mapper q)) = false
                          /\ resolve mapper resourceArg = fst (ResourceFor mapper q)))).
Proof.
  unfold resolve, lookups, fullySpecifiedAnswer. rewrite resourceFor_cases.
  unfold secondStage.
  destruct (fullySpecified resourceArg) as [f|].
  - destruct (IsEmpty (fst (ResourceFor mapper f))) eqn:E; cbn [fst snd List.map List.last].
    + destruct (snd (ResourceFor mapper (groupResourceQuery resourceArg)))
        as [e|] eqn:E2.
      * right. exists (groupResourceQuery resourceArg), e. auto 10.
      * left. exists (groupResourceQuery resourceArg). auto.
    + destruct (snd (ResourceFor mapper f)) as [e|] eqn:E2.
      * right. exists f, e. auto 10.
      * left. exists f. auto.
  - cbn [fst snd List.map List.last].
    destruct (snd (ResourceFor mapper (groupResourceQuery resourceArg)))
      as [e|] eqn:E2.
    + right. exists (groupResourceQuery resourceArg), e. auto 10.
    + left. exists (groupResourceQuery resourceArg). auto.
Qed.

(** X3.  Tokens that differ in the case of their letters only are looked up
    alike and resolve alike, except when resolution ends in the reference of
    last resort, which keeps each token's own spelling. *)
Theorem resourceFor_case_insensitive
  (mapper : RESTMapper) (a b : string) :
  strings.ToLower a = strings.ToLower b ->
  lookups mapper a = lookups mapper b
  /\ (resolve mapper a = resolve mapper b
      \/ (resolve mapper a = degenerate a /\ resolve mapper b = degenerate b)).
Proof.
  intros H. split; [apply lookups_case_insensitive; exact H|].
  unfold resolve. rewrite !resourceFor_cases.
  unfold secondStage, fullySpecified, groupResourceQuery. rewrite H.
  set (q := WithVersion (snd (ParseResourceArg (strings.ToLower b))) "").
  destruct (fst (ParseResourceArg (strings.ToLower b))) as [f|].
  - destruct (IsEmpty (fst (ResourceFor mapper f))); cbn [fst]; [|left; reflexivity].
    destruct (snd (ResourceFor mapper q)); [right; split; reflexivity|left; reflexivity].
  - cbn [fst].
    destruct (snd (ResourceFor mapper q)); [right; split; reflexivity|left; reflexivity].
Qed.

(** X4.  The result is the empty reference in two cases only: the first
    stage left [gvr] empty and the group-resource lookup returned the empty
    reference without an error, or it returned an error and the token is
    the empty string. *)
Theorem resourceFor_empty_result (mapper : RESTMapper) (resourceArg : string) :
  IsEmpty (resolve mapper resourceArg) = true <->
  IsEmpty (fullySpecifiedAnswer mapper resourceArg) = true
  /\ match snd (ResourceFor mapper (groupResourceQuery resourceArg)) with
     | None => IsEmpty (fst (ResourceFor mapper (groupResourceQuery resourceArg))) = true
     | Some _ => resourceArg = ""
     end.
Proof.
  assert (Hdeg : IsEmpty (degenerate resourceArg) = true <-> resourceArg = "").
  { unfold degenerate, IsEmpty. cbn. destruct resourceArg; cbn; split; congruence. }
  unfold resolve, fullySpecifiedAnswer. rewrite resourceFor_cases.
  unfold secondStage.
  destruct (fullySpecified resourceArg) as [f|].
  - destruct (IsEmpty (fst (ResourceFor mapper f))) eqn:E; cbn [fst].
    + destruct (snd (ResourceFor mapper (groupResourceQuery resourceArg))).
      * rewrite Hdeg. tauto.
      * tauto.
    + rewrite E. split; [discriminate|intros [? _]; discriminate].
  - cbn [fst].
    destruct (snd (ResourceFor mapper (groupResourceQuery resourceArg))).
    + rewrite Hdeg. split; [auto|tauto].
    + split; [auto|tauto].
Qed.

(** * Properties of [complete] and of the [Run] closure *)

(** [complete] on an empty log, by cases on the number of arguments. *)
Lemma complete_cases
  (f : clientcmd.Factory) (args : list string) (o : whoCanOptions) :
  complete f args o [] =
  if negb (length args =? 2)%nat then ((Some twoArguments, o), [])
  else
    ((None,
      {| allNamespaces := allNamespaces o;
         bindingNamespace := bindingNamespace o;
         client := client o;
         verb := List.nth 0 args "";
         resource := resolve (clientcmd.Object f) (List.nth 1 args "") |}),
     CallObject
     :: List.map MapperLookup (lookups (clientcmd.Object f) (List.nth 1 args ""))).
Proof.
  unfold complete, resolve, lookups.
  destruct (negb (length args =? 2)%nat); [reflexivity|].
  unfold lbind, embed, emit, lret. cbn [app].
  destruct (resourceFor (clientcmd.Object f) (List.nth 1 args "") [])
    as [r l].
  reflexivity.
Qed.

Section CommandLemmas.

Variable NamespaceAll : string.
Variable UsageError : string -> error.
Variable f : clientcmd.Factory.
Variable options : whoCanOptions.
Variable args : list string.

(** The closure on an empty log, by cases on where it ends. *)
Lemma NewCmdWhoCan_Run_cases :
  NewCmdWhoCan_Run NamespaceAll UsageError f options args [] =
  if negb (length args =? 2)%nat then (Fatal (UsageError twoArguments), [])
  else
    match snd (clientcmd.Clients f) with
    | Some e => (Fatal e, resolutionEvents f args)
    | None =>
        match snd (clientcmd.DefaultNamespace f) with
        | Some e => (Fatal e, resolutionEvents f args ++ [CallDefaultNamespace])
        | None =>
            (match fst (run NamespaceAll (completed f options args) []) with
             | Some e => Fatal e
             | None => Done
             end,
             resolutionEvents f args ++ [CallDefaultNamespace]
             ++ List.map RunEvent
                  (snd (run NamespaceAll (completed f options args) [])))
        end
    end.
Proof.
  unfold NewCmdWhoCan_Run, resolutionEvents, completed.
  unfold lbind at 1. rewrite complete_cases.
  destruct (negb (length args =? 2)%nat); [reflexivity|].
  cbn [option_map CheckErr].
  unfold lbind, emit, lret, embed.
  destruct (clientcmd.Clients f) as [c [e|]]; cbn [fst snd CheckErr];
    [rewrite <- app_comm_cons; reflexivity|].
  destruct (clientcmd.DefaultNamespace f) as [ns [e|]]; cbn [fst snd CheckErr].
  { unfold lret. rewrite <- !app_comm_cons, <- !app_assoc. reflexivity. }
  destruct (run NamespaceAll _ []) as [[e|] l]; cbn [fst snd CheckErr];
    unfold lret; rewrite <- !app_comm_cons, <- !app_assoc; reflexivity.
Qed.

End CommandLemmas.

(** ** The log of an invocation *)

Lemma runEvents_app (l1 l2 : list CmdEvent) :
  runEvents (l1 ++ l2) = runEvents l1 ++ runEvents l2.
Proof. unfold runEvents. apply List.flat_map_app. Qed.

Lemma runEvents_RunEvent (l : list Event) :
  runEvents (List.map RunEvent l) = l.
Proof.
  induction l as [|e l IH]; [reflexivity|].
  cbn. unfold runEvents in IH. rewrite IH. reflexivity.
Qed.

Lemma runEvents_MapperLookup (l : list GroupVersionResource) :
  runEvents (List.map MapperLookup l) = [].
Proof.
  induction l as [|q l IH]; [reflexivity|]. cbn. exact IH.
Qed.

Lemma runEvents_resolutionEvents (f : clientcmd.Factory) (args : list string) :
  runEvents (resolutionEvents f args) = [].
Proof.
  unfold resolutionEvents.
  change (runEvents ([CallObject] ++
            List.map MapperLookup
              (lookups (clientcmd.Object f) (List.nth 1 args ""))
            ++ [CallClients]) = []).
  rewrite !runEvents_app, runEvents_MapperLookup. reflexivity.
Qed.

Lemma lookups_resolutionEvents (f : clientcmd.Factory) (args : list string) :
  List.filter isMapperLookup (resolutionEvents f args) =
  List.map MapperLookup (lookups (clientcmd.Object f) (List.nth 1 args "")).
Proof.
  unfold resolutionEvents. cbn [List.filter isMapperLookup].
  rewrite List.filter_app. cbn [List.filter isMapperLookup].
  rewrite List.app_nil_r.
  induction (lookups (clientcmd.Object f) (List.nth 1 args "")) as [|q l IH];
    [reflexivity|].
  cbn. rewrite IH. reflexivity.
Qed.

Lemma filter_isMapperLookup_RunEvent (l : list Event) :
  List.filter isMapperLookup (List.map RunEvent l) = [].
Proof. induction l as [|e l IH]; [reflexivity|]. cbn. exact IH. Qed.

Lemma length_two_eqb (args : list string) :
  negb (length args =? 2)%nat = false <-> length args = 2.
Proof.
  rewrite negb_false_iff. apply Nat.eqb_eq.
Qed.

(** X5.  With two arguments [complete] never fails, whatever the mapper
    answers: it returns nil, sets the verb to the first argument and the
    resource to what the resolver makes of the second, leaves the other
    options alone, and has asked the factory for the mapper once and the
    mapper at most twice. *)
Theorem complete_two_arguments
  (f : clientcmd.Factory) (o : whoCanOptions) (verbArg resourceArg : string) :
  exists o' log,
    complete f [verbArg; resourceArg] o [] = ((None, o'), log)
    /\ verb o' = verbArg
    /\ resource o' = resolve (clientcmd.Object f) resourceArg
    /\ allNamespaces o' = allNamespaces o
    /\ bindingNamespace o' = bindingNamespace o
    /\ client o' = client o
    /\ log = CallObject
             :: List.map MapperLookup (lookups (clientcmd.Object f) resourceArg)
    /\ length log <= 3.
Proof.
  eexists _, _. rewrite complete_cases. cbn [length Nat.eqb negb List.nth].
  split; [reflexivity|]. cbn [verb resource allNamespaces bindingNamespace client].
  repeat (split; [reflexivity|]).
  cbn [length]. rewrite length_map.
  pose proof (lookups_length (clientcmd.Object f) resourceArg). lia.
Qed.

(** X6.  With any other number of arguments the invocation ends at once with
    the usage error made of the message of [complete]: the factory is asked
    for nothing, no lookup and no review is made, and nothing is
    printed. *)
Theorem command_usage_error
  (NamespaceAll : string) (UsageError : string -> error)
  (f : clientcmd.Factory) (options : whoCanOptions) (args : list string) :
  length args <> 2 ->
  complete f args options [] = ((Some twoArguments, options), [])
  /\ NewCmdWhoCan_Run NamespaceAll UsageError f options args [] =
     (Fatal (UsageError twoArguments), []).
Proof.
  intros H. rewrite NewCmdWhoCan_Run_cases, complete_cases.
  destruct (negb (length args =? 2)%nat) eqn:E; [split; reflexivity|].
  apply length_two_eqb in E. contradiction.
Qed.

(** X7.  When the factory cannot make a client the invocation ends with
    that error, as it is.  The resource has been resolved by then (the
    mapper has been asked), but the namespace is not asked for, no review is
    made and nothing is printed. *)
Theorem command_client_error
  (NamespaceAll : string) (UsageError : string -> error)
  (f : clientcmd.Factory) (options : whoCanOptions) (args : list string)
  (e : error) :
  length args = 2 ->
  snd (clientcmd.Clients f) = Some e ->
  let result := NewCmdWhoCan_Run NamespaceAll UsageError f options args [] in
  fst result = Fatal e
  /\ runEvents (snd result) = []
  /\ ~ (CallDefaultNamespace ∈ snd result)
  /\ List.filter isMapperLookup (snd result) =
     List.map MapperLookup (lookups (clientcmd.Object f) (List.nth 1 args "")).
Proof.
  intros Hlen He result. subst result.
  rewrite NewCmdWhoCan_Run_cases.
  apply length_two_eqb in Hlen. rewrite Hlen, He. cbn [fst snd].
  split; [reflexivity|].
  split; [apply runEvents_resolutionEvents|].
  split; [|apply lookups_resolutionEvents].
  unfold resolutionEvents. intros Hin.
  apply elem_of_cons in Hin as [Hin|Hin]; [discriminate|].
  apply elem_of_app in Hin as [Hin|Hin].
  - apply list_elem_of_In, List.in_map_iff in Hin as (q & Hq & _). discriminate.
  - apply list_elem_of_singleton in Hin. discriminate.
Qed.

(** X8.  When the factory cannot tell the current namespace the invocation
    ends with that error, with [--all-namespaces] as without it, although
    the namespace is not needed then: no review is made and nothing is
    printed. *)
Theorem command_namespace_error
  (NamespaceAll : string) (UsageError : string -> error)
  (f : clientcmd.Factory) (options : whoCanOptions) (args : list string)
  (e : error) :
  length args = 2 ->
  snd (clientcmd.Clients f) = None ->
  snd (clientcmd.DefaultNamespace f) = Some e ->
  let result := NewCmdWhoCan_Run NamespaceAll UsageError f options args [] in
  fst result = Fatal e
  /\ runEvents (snd result) = []
  /\ snd result = resolutionEvents f args ++ [CallDefaultNamespace].
Proof.
  intros Hlen Hc He result. subst result.
  rewrite NewCmdWhoCan_Run_cases.
  apply length_two_eqb in Hlen. rewrite Hlen, Hc, He. cbn [fst snd].
  split; [reflexivity|]. split; [|reflexivity].
  rewrite runEvents_app, runEvents_resolutionEvents. reflexivity.
Qed.

Lemma run_log_shape (NamespaceAll : string) (o : whoCanOptions) :
  exists rest,
    snd (run NamespaceAll o []) = reviewCall o :: rest
    /\ (forall e, e ∈ rest -> isPrintf e = true)
    /\ (fst (run NamespaceAll o []) = None -> length rest = 5)
    /\ (fst (run NamespaceAll o []) <> None -> rest = []).
Proof.
  rewrite run_cases. destruct (reviewAnswer o) as [resp [e|]]; cbn [fst snd].
  - exists []. split; [reflexivity|]. split; [|split; [discriminate|reflexivity]].
    intros e' He. apply elem_of_nil in He. contradiction.
  - eexists. split; [reflexivity|]. split; [|split; [reflexivity|congruence]].
    intros e He. unfold isPrintf.
    repeat (apply elem_of_cons in He as [->|He];
            [first [ apply negb_true_iff, isReview_namespaceLine
                   | apply negb_true_iff, isReview_principalsSection
                   | reflexivity ]|]).
    apply elem_of_nil in He. contradiction.
Qed.

Lemma run_returns_review_error (NamespaceAll : string) (o : whoCanOptions) :
  fst (run NamespaceAll o []) = snd (reviewAnswer o).
Proof.
  rewrite run_cases. destruct (reviewAnswer o) as [resp [e|]]; reflexivity.
Qed.

(** X9.  With two arguments and a factory that works, the closure calls
    [run] on options put together from its sources: the flag, the factory's
    namespace and client, the first argument as the verb and the resolved
    second argument as the resource.  The one review of the invocation
    therefore carries that verb together with the group and the resource of
    one and the same resolved reference, and an error of [run] ends the
    invocation as it is. *)
Theorem command_runs_completed_options
  (NamespaceAll : string) (UsageError : string -> error)
  (f : clientcmd.Factory) (options : whoCanOptions) (args : list string) :
  length args = 2 ->
  snd (clientcmd.Clients f) = None ->
  snd (clientcmd.DefaultNamespace f) = None ->
  let result := NewCmdWhoCan_Run NamespaceAll UsageError f options args [] in
  let resolved := resolve (clientcmd.Object f) (List.nth 1 args "") in
  let query :=
    {| authorizationapi.Verb := List.nth 0 args "";
       authorizationapi.Group := Group resolved;
       authorizationapi.Resource := Resource resolved |} in
  runEvents (snd result) = snd (run NamespaceAll (completed f options args) [])
  /\ fst result =
     match fst (run NamespaceAll (completed f options args) []) with
     | Some e => Fatal e
     | None => Done
     end
  /\ reviews (runEvents (snd result)) =
     [ if allNamespaces options
       then ClusterReview {| authorizationapi.Action := query |}
       else LocalReview (fst (clientcmd.DefaultNamespace f))
              {| authorizationapi.LocalAction := query |} ].
Proof.
  intros Hlen Hc Hn result resolved query. subst result.
  rewrite NewCmdWhoCan_Run_cases.
  apply length_two_eqb in Hlen. rewrite Hlen, Hc, Hn. cbn [fst snd].
  assert (Hrun : runEvents
                   (resolutionEvents f args ++ [CallDefaultNamespace] ++
                    List.map RunEvent
                      (snd (run NamespaceAll (completed f options args) []))) =
                 snd (run NamespaceAll (completed f options args) [])).
  { rewrite !runEvents_app, runEvents_resolutionEvents, runEvents_RunEvent.
    reflexivity. }
  rewrite Hrun. split; [reflexivity|]. split; [reflexivity|].
  rewrite reviews_run. unfold reviewCall, completed.
  cbn [allNamespaces bindingNamespace]. reflexivity.
Qed.

(** X10.  The invocation ends without an error if and only if it has two
    arguments, the factory yields a client and a namespace, and the review
    returns no error.  The report is printed then, all five sections of it;
    in every other case nothing at all is printed. *)
Theorem command_done_iff
  (NamespaceAll : string) (UsageError : string -> error)
  (f : clientcmd.Factory) (options : whoCanOptions) (args : list string) :
  let result := NewCmdWhoCan_Run NamespaceAll UsageError f options args [] in
  (fst result = Done <->
   length args = 2
   /\ snd (clientcmd.Clients f) = None
   /\ snd (clientcmd.DefaultNamespace f) = None
   /\ snd (reviewAnswer (completed f options args)) = None)
  /\ (fst result = Done -> length (sections (runEvents (snd result))) = 5)
  /\ (fst result <> Done ->
      sections (runEvents (snd result)) = []
      /\ stdout (runEvents (snd result)) = "").
Proof.
  intros result. subst result. rewrite NewCmdWhoCan_Run_cases.
  destruct (negb (length args =? 2)%nat) eqn:Hlen.
  { cbn [fst snd]. split; [split; [discriminate|]|split; [discriminate|]].
    - intros (H & _). apply length_two_eqb in H. congruence.
    - intros _. split; reflexivity. }
  apply length_two_eqb in Hlen.
  destruct (snd (clientcmd.Clients f)) as [e|].
  { cbn [fst snd]. rewrite runEvents_resolutionEvents.
    split; [split; [discriminate|intros (_ & H & _); discriminate]|].
    split; [discriminate|]. intros _. split; reflexivity. }
  destruct (snd (clientcmd.DefaultNamespace f)) as [e|].
  { cbn [fst snd]. rewrite runEvents_app, runEvents_resolutionEvents.
    split; [split; [discriminate|intros (_ & _ & H & _); discriminate]|].
    split; [discriminate|]. intros _. split; reflexivity. }
  cbn [fst snd].
  rewrite !runEvents_app, runEvents_resolutionEvents, runEvents_RunEvent.
  cbn [runEvents flat_map app].
  rewrite <- (run_returns_review_error NamespaceAll).
  rewrite run_cases.
  destruct (reviewAnswer (completed f options args)) as [resp [e|]];
    cbn [fst snd].
  - split; [split; [discriminate|intros (_ & _ & _ & H); discriminate]|].
    split; [discriminate|]. intros _.
    unfold sections, stdout, isPrintf. cbn [List.filter fold_right].
    rewrite isReview_reviewCall. cbn [negb fold_right].
    unfold reviewCall. destruct (allNamespaces _); split; reflexivity.
  - split; [split; auto|]. split; [|congruence].
    intros _. rewrite sections_report. reflexivity.
Qed.

(** X11.  The order of things in every invocation: first the calls on the
    factory and the lookups of the resolver, at most two of them, then the
    events of [run] and nothing else; among these the review comes first and
    only [Printf] calls follow it.  So no lookup is made after the review,
    and nothing is printed before it. *)
Theorem command_event_order
  (NamespaceAll : string) (UsageError : string -> error)
  (f : clientcmd.Factory) (options : whoCanOptions) (args : list string) :
  let log := snd (NewCmdWhoCan_Run NamespaceAll UsageError f options args []) in
  exists before ran,
    log = before ++ List.map RunEvent ran
    /\ (forall e, e ∈ before -> isRunEvent e = false)
    /\ length (List.filter isMapperLookup log) <= 2
    /\ (ran = []
        \/ exists review prints,
             ran = review :: prints
             /\ isReview review = true
             /\ forall e, e ∈ prints -> isPrintf e = true).
Proof.
  intros log. subst log. rewrite NewCmdWhoCan_Run_cases.
  assert (Hpre : forall e, e ∈ resolutionEvents f args -> isRunEvent e = false).
  { unfold resolutionEvents. intros e He.
    apply elem_of_cons in He as [->|He]; [reflexivity|].
    apply elem_of_app in He as [He|He].
    - apply list_elem_of_In, List.in_map_iff in He as (q & <- & _). reflexivity.
    - apply list_elem_of_singleton in He as ->. reflexivity. }
  assert (Hbudget : length (List.filter isMapperLookup (resolutionEvents f args)) <= 2).
  { rewrite lookups_resolutionEvents, length_map.
    pose proof (lookups_length (clientcmd.Object f) (List.nth 1 args "")). lia. }
  destruct (negb (length args =? 2)%nat).
  { exists [], []. cbn. split; [reflexivity|]. split; [|split; [lia|left; reflexivity]].
    intros e He. apply elem_of_nil in He. contradiction. }
  destruct (snd (clientcmd.Clients f)) as [e|].
  { exists (resolutionEvents f args), []. cbn [snd List.map].
    rewrite List.app_nil_r. auto. }
  destruct (snd (clientcmd.DefaultNamespace f)) as [e|].
  { exists (resolutionEvents f args ++ [CallDefaultNamespace]), [].
    cbn [snd List.map]. rewrite List.app_nil_r.
    split; [reflexivity|]. split; [|split; [|left; reflexivity]].
    - intros e' He. apply elem_of_app in He as [He|He]; [auto|].
      apply list_elem_of_singleton in He as ->. reflexivity.
    - rewrite List.filter_app. cbn [List.filter isMapperLookup].
      rewrite List.app_nil_r. exact Hbudget. }
  destruct (run_log_shape NamespaceAll (completed f options args))
    as (rest & Hlog & Hrest & _).
  exists (resolutionEvents f args ++ [CallDefaultNamespace]),
    (snd (run NamespaceAll (completed f options args) [])).
  cbn [snd]. split; [rewrite <- List.app_assoc; reflexivity|].
  split; [|split].
  - intros e' He. apply elem_of_app in He as [He|He]; [auto|].
    apply list_elem_of_singleton in He as ->. reflexivity.
  - rewrite !List.filter_app, filter_isMapperLookup_RunEvent.
    cbn [List.filter isMapperLookup]. rewrite !List.app_nil_r. exact Hbudget.
  - right. exists (reviewCall (completed f options args)), rest.
    split; [exact Hlog|]. split; [apply isReview_reviewCall|exact Hrest].
Qed.

(** X12.  Of the options the closure starts from only the flag counts: the
    verb, the resource, the client and the namespace they hold are
    overwritten before they are used, so two invocations that agree on the
    flag, the factory and the arguments do the same. *)
Theorem command_overwrites_options
  (NamespaceAll : string) (UsageError : string -> error)
  (f : clientcmd.Factory) (o o' : whoCanOptions) (args : list string) :
  allNamespaces o = allNamespaces o' ->
  NewCmdWhoCan_Run NamespaceAll UsageError f o args [] =
  NewCmdWhoCan_Run NamespaceAll UsageError f o' args [].
Proof.
  intros H. rewrite !NewCmdWhoCan_Run_cases.
  unfold completed. rewrite H. reflexivity.
Qed.

(** * More properties of [run] and of the report *)

(** X13.  The version of the resolved reference plays no part in [run]:
    neither the query sent to the server nor the report shows it, so two
    invocations whose resources differ in the version only do the same. *)
Theorem run_ignores_version
  (NamespaceAll : string) (o : whoCanOptions) (version : string) :
  run NamespaceAll
    {| allNamespaces := allNamespaces o;
       bindingNamespace := bindingNamespace o;
       client := client o;
       verb := verb o;
       resource := {| Group := Group (resource o);
                      Version := version;
                      Resource := Resource (resource o) |} |} [] =
  run NamespaceAll o [].
Proof.
  destruct o as [a b c v [g ver r]]. reflexivity.
Qed.

(** X14.  With [allNamespaces] set, the namespace the options hold plays no
    part in [run]: the cluster-scoped call does not carry it and the report
    shows the namespace of the answer. *)
Theorem run_all_namespaces_ignores_binding
  (NamespaceAll : string) (o : whoCanOptions) (namespace : string) :
  allNamespaces o = true ->
  run NamespaceAll
    {| allNamespaces := allNamespaces o;
       bindingNamespace := namespace;
       client := client o;
       verb := verb o;
       resource := resource o |} [] =
  run NamespaceAll o [].
Proof.
  destruct o as [a b c v r]. cbn. intros ->. reflexivity.
Qed.

(** ** Texts *)

Lemma app_length (a b : string) :
  String.length (a +:+ b) = String.length a + String.length b.
Proof.
  induction a as [|c a IH]; [reflexivity|].
  change (S (String.length (a +:+ b)) = S (String.length a + String.length b)).
  rewrite IH. reflexivity.
Qed.

Lemma app_inj_r (a b c : string) : a +:+ c = b +:+ c -> a = b.
Proof.
  revert b. induction a as [|x a IH]; intros [|y b] H.
  - reflexivity.
  - apply (f_equal String.length) in H.
    change (String.length c = S (String.length (b +:+ c))) in H.
    rewrite app_length in H. lia.
  - apply (f_equal String.length) in H.
    change (S (String.length (a +:+ c)) = String.length c) in H.
    rewrite app_length in H. lia.
  - change (String x (a +:+ c) = String y (b +:+ c)) in H.
    injection H as -> H. rewrite (IH b H). reflexivity.
Qed.

Lemma hasNewline_app (a b : string) :
  hasNewline (a +:+ b) = hasNewline a || hasNewline b.
Proof.
  induction a as [|c a IH]; [reflexivity|].
  change (Ascii.eqb c "010" || hasNewline (a +:+ b) =
          Ascii.eqb c "010" || hasNewline a || hasNewline b).
  rewrite IH, orb_assoc. reflexivity.
Qed.

(** The joined listing is the word none for the listing of that one word
    only. *)
Lemma Join_none (l : list string) :
  l <> [] ->
  strings.Join l (fmt.lit "\n        ") = "none" -> l = ["none"].
Proof.
  destruct l as [|x [|y l]]; [congruence| |]; intros _ H.
  - cbn in H. rewrite H. reflexivity.
  - apply (f_equal hasNewline) in H.
    change (hasNewline
              (x +:+ fmt.lit "\n        " +:+
               strings.Join (y :: l) (fmt.lit "\n        ")) = false) in H.
    rewrite !hasNewline_app in H.
    change (hasNewline (fmt.lit "\n        ")) with true in H.
    rewrite orb_true_r in H. discriminate H.
Qed.

Lemma List_singleton_none (s : gset string) :
  sets.List s = ["none"] <-> s = {["none"]}.
Proof.
  split.
  - intros H. destruct (List_sortedListing s) as (_ & _ & Hx).
    apply set_eq. intros x. rewrite <- Hx, H.
    rewrite list_elem_of_singleton, elem_of_singleton. reflexivity.
  - intros ->. vm_compute. reflexivity.
Qed.

Lemma List_nonempty (s : gset string) : s <> ∅ -> sets.List s <> [].
Proof.
  intros Hne H. apply Hne. destruct (List_sortedListing s) as (_ & _ & Hx).
  apply set_eq. intros x. rewrite <- Hx, H.
  split; intros Hin; [apply elem_of_nil in Hin|apply elem_of_empty in Hin];
    contradiction.
Qed.

Lemma principals_none_text (label : string) (s : gset string) :
  label +:+ strings.Join (sets.List s) (fmt.lit "\n        ") +:+ fmt.lit "\n\n"
  = label +:+ "none" +:+ fmt.lit "\n\n" ->
  s <> ∅ -> s = {["none"]}.
Proof.
  intros H Hne. apply (inj (String.app label)) in H.
  apply app_inj_r in H.
  apply List_singleton_none, Join_none; [apply List_nonempty; exact Hne|exact H].
Qed.

(** X15.  What the reader of the report sees: the Namespace line reads
    [<all>] exactly when the namespace of the answer is [kapi.NamespaceAll]
    or is itself the string [<all>]; the two cases print the same text. *)
Theorem report_namespace_text
  (NamespaceAll : string) (o : whoCanOptions)
  (resp : authorizationapi.ResourceAccessReviewResponse) :
  reviewAnswer o = (resp, None) ->
  sectionText 0 (snd (run NamespaceAll o [])) = fmt.lit "Namespace: <all>\n"
  <-> authorizationapi.Namespace resp = NamespaceAll
      \/ authorizationapi.Namespace resp = "<all>".
Proof.
  intros H. rewrite (run_success NamespaceAll o resp H). cbn [snd].
  unfold sectionText, section. rewrite sections_report. cbn [nth_error].
  unfold namespaceLine.
  destruct (String.eqb (authorizationapi.Namespace resp) NamespaceAll) eqn:E.
  - apply String.eqb_eq in E. split; [auto|reflexivity].
  - apply String.eqb_neq in E.
    change (rendered (Printf (fmt.lit "Namespace: %s\n")
                        [authorizationapi.Namespace resp]))
      with ("Namespace: " +:+ authorizationapi.Namespace resp +:+ fmt.lit "\n").
    split.
    + intros Ht. right.
      change (fmt.lit "Namespace: <all>\n")
        with ("Namespace: " +:+ "<all>" +:+ fmt.lit "\n") in Ht.
      apply (inj (String.app "Namespace: ")) in Ht.
      apply app_inj_r in Ht. exact Ht.
    + intros [Hn|Hn]; [contradiction|]. rewrite Hn. reflexivity.
Qed.

(** X16.  The Users section reads [none] exactly when the set of users is
    empty or holds the one name [none], and likewise the Groups section:
    the report does not tell an empty set from that singleton. *)
Theorem report_none_text
  (NamespaceAll : string) (o : whoCanOptions)
  (resp : authorizationapi.ResourceAccessReviewResponse) :
  reviewAnswer o = (resp, None) ->
  let log := snd (run NamespaceAll o []) in
  (sectionText 3 log = fmt.lit "Users:  none\n\n" <->
   authorizationapi.Users resp = ∅ \/ authorizationapi.Users resp = {["none"]})
  /\ (sectionText 4 log = fmt.lit "Groups: none\n\n" <->
      authorizationapi.Groups resp = ∅ \/ authorizationapi.Groups resp = {["none"]}).
Proof.
  intros H log. subst log.
  rewrite (run_success NamespaceAll o resp H). cbn [snd].
  unfold sectionText, section. rewrite sections_report. cbn [nth_error].
  split.
  - destruct (sectionText_principals
                "Users:  none\n\n" "Users:  %s\n\n"
                (authorizationapi.Users resp)) as [H0 H1].
    destruct (decide (authorizationapi.Users resp = ∅)) as [E|E].
    + rewrite (H0 E). split; [auto|reflexivity].
    + rewrite (H1 E). split.
      * intros Ht. right.
        exact (principals_none_text "Users:  " _ Ht E).
      * intros [E'|E']; [contradiction|]. rewrite E'. vm_compute. reflexivity.
  - destruct (sectionText_principals
                "Groups: none\n\n" "Groups: %s\n\n"
                (authorizationapi.Groups resp)) as [H0 H1].
    destruct (decide (authorizationapi.Groups resp = ∅)) as [E|E].
    + rewrite (H0 E). split; [auto|reflexivity].
    + rewrite (H1 E). split.
      * intros Ht. right.
        exact (principals_none_text "Groups: " _ Ht E).
      * intros [E'|E']; [contradiction|]. rewrite E'. vm_compute. reflexivity.
Qed.

Lemma stdout_sections (log : list Event) : stdout log = stdout (sections log).
Proof.
  unfold stdout, sections.
  induction log as [|e log IH]; [reflexivity|].
  cbn [fold_right List.filter]. rewrite IH.
  destruct e; reflexivity.
Qed.

(** X18.  The report is made of the answer, the verb, and the group and the
    resource of the reference, and of nothing else: whatever the scope, the
    namespace and the client, two runs that get the same answer for the same
    verb, group and resource print the same text. *)
Theorem report_depends_on_answer
  (NamespaceAll : string) (o o' : whoCanOptions)
  (resp : authorizationapi.ResourceAccessReviewResponse) :
  reviewAnswer o = (resp, None) ->
  reviewAnswer o' = (resp, None) ->
  verb o = verb o' ->
  Group (resource o) = Group (resource o') ->
  Resource (resource o) = Resource (resource o') ->
  sections (snd (run NamespaceAll o [])) = sections (snd (run NamespaceAll o' []))
  /\ stdout (snd (run NamespaceAll o [])) = stdout (snd (run NamespaceAll o' [])).
Proof.
  intros H H' Hv Hg Hr.
  assert (Hs : sections (snd (run NamespaceAll o [])) =
               sections (snd (run NamespaceAll o' []))).
  { rewrite (run_success NamespaceAll o resp H),
      (run_success NamespaceAll o' resp H').
    cbn [snd]. rewrite !sections_report.
    unfold resourceDisplay. rewrite Hv, Hg, Hr. reflexivity. }
  split; [exact Hs|].
  rewrite (stdout_sections (snd (run NamespaceAll o []))),
    (stdout_sections (snd (run NamespaceAll o' []))), Hs.
  reflexivity.
Qed.

(** * The resolver and the report together *)

(** X19.  A resource the mapper does not know goes through as typed: when
    every lookup fails, the server is asked about the token itself, in the
    spelling of the command line and with an empty group, and the Resource
    line of the report shows that token. *)
Theorem command_unknown_resource
  (NamespaceAll : string) (UsageError : string -> error)
  (f : clientcmd.Factory) (options : whoCanOptions)
  (verbArg resourceArg : string) (e : error) :
  snd (clientcmd.Clients f) = None ->
  snd (clientcmd.DefaultNamespace f) = None ->
  IsEmpty (fullySpecifiedAnswer (clientcmd.Object f) resourceArg) = true ->
  snd (ResourceFor (clientcmd.Object f) (groupResourceQuery resourceArg)) = Some e ->
  let result :=
    NewCmdWhoCan_Run NamespaceAll UsageError f options [verbArg; resourceArg] [] in
  let query :=
    {| authorizationapi.Verb := verbArg;
       authorizationapi.Group := "";
       authorizationapi.Resource := resourceArg |} in
  reviews (runEvents (snd result)) =
  [ if allNamespaces options
    then ClusterReview {| authorizationapi.Action := query |}
    else LocalReview (fst (clientcmd.DefaultNamespace f))
           {| authorizationapi.LocalAction := query |} ]
  /\ (fst result = Done ->
      sectionText 2 (runEvents (snd result)) =
      "Resource:  " +:+ resourceArg +:+ fmt.lit "\n\n").
Proof.
  intros Hc Hn H1 H2 result query. subst result.
  rewrite NewCmdWhoCan_Run_cases.
  cbn [length Nat.eqb negb]. rewrite Hc, Hn. cbn [fst snd].
  rewrite !runEvents_app, runEvents_resolutionEvents, runEvents_RunEvent.
  cbn [runEvents flat_map app].
  set (o := completed f options [verbArg; resourceArg]).
  assert (Hres : resource o = degenerate resourceArg).
  { unfold o, completed. cbn [resource List.nth].
    exact (resolve_degenerate (clientcmd.Object f) resourceArg e H1 H2). }
  split.
  - rewrite reviews_run. unfold reviewCall, authorizationAttributes.
    rewrite Hres. reflexivity.
  - intros Hdone.
    assert (Hnil : fst (run NamespaceAll o []) = None).
    { destruct (fst (run NamespaceAll o [])); [discriminate Hdone|reflexivity]. }
    rewrite (run_success NamespaceAll o _ (run_returns_nil NamespaceAll o Hnil)).
    cbn [snd]. unfold sectionText, section. rewrite sections_report.
    cbn [nth_error]. unfold resourceDisplay. rewrite Hres. reflexivity.
Qed.

End Properties.

(** * The properties at work

    The command run on inputs, with [strings.toLowerLatin1] for
    [strings.ToLower]. *)

#[global] Existing Instance strings.latin1.

(** C1, as stated, fails: a mapper may return a reference together with
    its error.  Line 79 drops the error, line 81 finds [gvr] not empty, and
    that reference is the result, although the mapper returned an error to
    the fully-qualified lookup and would return one to the group-resource
    lookup as well. *)
Lemma resourceFor_error_with_reference :
  let answer :=
    {| Group := "apps"; Version := "v1"; Resource := "deployments" |} in
  let mapper := Mappers.const answer (Some "ambiguous") in
  let f := {| Group := "apps"; Version := "v1"; Resource := "deploy" |} in
  fullySpecified "deploy.v1.apps" = Some f
  /\ snd (ResourceFor mapper f) = Some "ambiguous"
  /\ snd (ResourceFor mapper (groupResourceQuery "deploy.v1.apps")) =
     Some "ambiguous"
  /\ resolve mapper "deploy.v1.apps" = answer
  /\ resolve mapper "deploy.v1.apps" <>
     {| Group := ""; Version := ""; Resource := "deploy.v1.apps" |}
  /\ ~ (forall (m : RESTMapper) (token : string),
          (forall q, fullySpecified token = Some q ->
                     snd (ResourceFor m q) <> None) ->
          snd (ResourceFor m (groupResourceQuery token)) <> None ->
          resolve m token =
          {| Group := ""; Version := ""; Resource := token |}).
Proof.
  cbv zeta.
  split; [reflexivity|]. split; [reflexivity|]. split; [reflexivity|].
  split; [reflexivity|]. split; [vm_compute; discriminate|].
  intros H.
  specialize (H (Mappers.const
                   {| Group := "apps"; Version := "v1";
                      Resource := "deployments" |}
                   (Some "ambiguous"))
                "deploy.v1.apps").
  assert (Hres : resolve
                   (Mappers.const
                      {| Group := "apps"; Version := "v1";
                         Resource := "deployments" |}
                      (Some "ambiguous"))
                   "deploy.v1.apps" =
                 {| Group := ""; Version := ""; Resource := "deploy.v1.apps" |}).
  { apply H; [intros q _|]; discriminate. }
  vm_compute in Hres. discriminate Hres.
Qed.

(** A mapper that knows nothing, asked for a fully-qualified token. *)
Lemma resourceFor_degrades_to_token_witness :
  resolve Mappers.none "builds.v1.build.openshift.io" =
  {| Group := ""; Version := ""; Resource := "builds.v1.build.openshift.io" |}.
Proof.
  apply (resourceFor_degrades_to_token
           Mappers.none "builds.v1.build.openshift.io" "no match");
    reflexivity.
Defined.

(** C2, as stated, fails: a mapper may answer a fully-qualified query with
    a non-empty reference of another version, and [resourceFor] returns it as
    it is.  The lenient mapper serves deployments.apps at v1beta1 only; asked
    for deployments.v1.apps, the resolved version is v1beta1. *)
Lemma resourceFor_version_not_checked :
  let mapper :=
    Mappers.lenient
      [{| Group := "apps"; Version := "v1beta1"; Resource := "deployments" |}] in
  let requested :=
    {| Group := "apps"; Version := "v1"; Resource := "deployments" |} in
  fullySpecified "deployments.v1.apps" = Some requested
  /\ IsEmpty (fst (ResourceFor mapper requested)) = false
  /\ resolve mapper "deployments.v1.apps" = fst (ResourceFor mapper requested)
  /\ lookups mapper "deployments.v1.apps" = [requested]
  /\ Version (resolve mapper "deployments.v1.apps") = "v1beta1"
  /\ ~ (forall m tok f,
          fullySpecified tok = Some f ->
          IsEmpty (fst (ResourceFor m f)) = false ->
          Version (resolve m tok) = Version f).
Proof.
  cbv zeta. repeat split.
  intros H.
  specialize (H (Mappers.lenient
                   [{| Group := "apps"; Version := "v1beta1";
                       Resource := "deployments" |}])
                "deployments.v1.apps"
                {| Group := "apps"; Version := "v1"; Resource := "deployments" |}
                eq_refl eq_refl).
  vm_compute in H. discriminate H.
Qed.

(** deployments.apps is known at v1 (preferred) and at v1beta1; v1beta1 is
    asked for and v1beta1 is resolved. *)
Lemma resourceFor_fully_specified_precedence_witness :
  let known :=
    [{| Group := "apps"; Version := "v1"; Resource := "deployments" |};
     {| Group := "apps"; Version := "v1beta1"; Resource := "deployments" |}] in
  let f := {| Group := "apps"; Version := "v1beta1"; Resource := "deployments" |} in
  resolve (Mappers.ofList known) "Deployments.v1beta1.apps" = f
  /\ lookups (Mappers.ofList known) "Deployments.v1beta1.apps" = [f]
  /\ (Version (resolve (Mappers.ofList known) "Deployments.v1beta1.apps")
      = Version f <-> Version f = Version f).
Proof.
  cbv zeta.
  apply (resourceFor_fully_specified_precedence
           (Mappers.ofList
              [{| Group := "apps"; Version := "v1"; Resource := "deployments" |};
               {| Group := "apps"; Version := "v1beta1";
                  Resource := "deployments" |}])
           "Deployments.v1beta1.apps"
           {| Group := "apps"; Version := "v1beta1"; Resource := "deployments" |}
           {| Group := "apps"; Version := "v1beta1"; Resource := "deployments" |}
           None);
    reflexivity.
Defined.

(** The token Pods and a mapper that knows nothing. *)
Lemma resourceFor_bare_token_witness :
  fullySpecified "Pods" = None
  /\ snd (ParseResourceArg (strings.ToLower "Pods")) =
     {| grGroup := ""; grResource := "pods" |}
  /\ lookups Mappers.none "Pods" =
     [{| Group := ""; Version := ""; Resource := "pods" |}]
  /\ (forall e : error,
        snd (ResourceFor Mappers.none
               {| Group := ""; Version := ""; Resource := "pods" |}) = Some e ->
        resolve Mappers.none "Pods" =
        {| Group := ""; Version := ""; Resource := "Pods" |})
  /\ (snd (ResourceFor Mappers.none
             {| Group := ""; Version := ""; Resource := "pods" |}) = None ->
      resolve Mappers.none "Pods" =
      fst (ResourceFor Mappers.none
             {| Group := ""; Version := ""; Resource := "pods" |})).
Proof. exact (resourceFor_bare_token Mappers.none "Pods" eq_refl). Defined.

(** The token PÖDS.V1.Apps, whose Ö is no byte of 'A'..'Z' and is lowered
    to ö all the same, and a mapper that knows nothing. *)
Lemma resourceFor_degenerate_keeps_case_witness :
  strings.ToLower "PÖDS.V1.Apps" = "pöds.v1.apps"
  /\ strings.ToLower "Öl" = "öl"
  /\ strings.hasUpper "Öl" = false
  /\ Resource (resolve Mappers.none "Öl") = "Öl"
  /\ lookups Mappers.none "Öl" =
     [{| Group := ""; Version := ""; Resource := "öl" |}]
  /\ resolve Mappers.none "Öl" <> degenerate (strings.ToLower "Öl")
  /\ resolve Mappers.none "PÖDS.V1.Apps" <>
     degenerate (strings.ToLower "PÖDS.V1.Apps").
Proof.
  destruct (resourceFor_degenerate_keeps_case Mappers.none "Öl" "no match")
    as (Hres & _ & _ & _ & Hdiff); [reflexivity|reflexivity|].
  destruct (resourceFor_degenerate_keeps_case
              Mappers.none "PÖDS.V1.Apps" "no match")
    as (_ & _ & _ & _ & Hdiff'); [reflexivity|reflexivity|].
  split; [vm_compute; reflexivity|].
  split; [vm_compute; reflexivity|].
  split; [vm_compute; reflexivity|].
  split; [exact Hres|].
  split; [vm_compute; reflexivity|].
  split.
  - apply Hdiff. left. vm_compute. discriminate.
  - apply Hdiff'. right. vm_compute. reflexivity.
Defined.

(** A mapper that answers with a non-empty reference and an error. *)
Lemma resourceFor_ignores_first_error_witness :
  let answer := {| Group := "apps"; Version := "v1"; Resource := "deployments" |} in
  let f := {| Group := "apps"; Version := "v1"; Resource := "deploy" |} in
  let mapper := Mappers.const answer (Some "ambiguous") in
  (IsEmpty answer = false ->
   resolve mapper "deploy.v1.apps" = answer
   /\ lookups mapper "deploy.v1.apps" = [f])
  /\ (IsEmpty answer = true ->
      resolve mapper "deploy.v1.apps" = secondStage mapper "deploy.v1.apps"
      /\ lookups mapper "deploy.v1.apps" =
         [f; groupResourceQuery "deploy.v1.apps"]).
Proof.
  cbv zeta.
  apply (resourceFor_ignores_first_error
           (Mappers.const
              {| Group := "apps"; Version := "v1"; Resource := "deployments" |}
              (Some "ambiguous"))
           "deploy.v1.apps"
           {| Group := "apps"; Version := "v1"; Resource := "deploy" |}
           {| Group := "apps"; Version := "v1"; Resource := "deployments" |}
           (Some "ambiguous"));
    reflexivity.
Defined.

(** The server refuses the review. *)
Lemma run_propagates_review_error_witness :
  fst (run "" Clients.forbidden []) = Some "forbidden"
  /\ snd (run "" Clients.forbidden []) = [reviewCall Clients.forbidden]
  /\ sections (snd (run "" Clients.forbidden [])) = []
  /\ stdout (snd (run "" Clients.forbidden [])) = "".
Proof.
  apply (run_propagates_review_error
           "" Clients.forbidden
           {| authorizationapi.Namespace := "";
              authorizationapi.Users := ∅;
              authorizationapi.Groups := ∅ |}
           "forbidden").
  reflexivity.
Defined.

(** The groups zeta and alpha, supplied in that order, and an empty set of
    users. *)
Lemma report_lists_principals_sorted_witness :
  sectionText 3 (snd (run "" Clients.getPods [])) = fmt.lit "Users:  alice\n\n"
  /\ sectionText 4 (snd (run "" Clients.getPods [])) =
     fmt.lit "Groups: alpha\n        zeta\n\n"
  /\ sets.List (sets.NewString ["zeta"; "alpha"]) = ["alpha"; "zeta"]
  /\ sets.List (sets.NewString ["zeta"; "alpha"]) =
     sets.List (sets.NewString ["alpha"; "zeta"])
  /\ sectionText 3 (snd (run "" Clients.createBuildsEverywhere [])) =
     fmt.lit "Users:  none\n\n".
Proof.
  destruct (report_lists_principals_sorted
              "" Clients.getPods
              {| authorizationapi.Namespace := "default";
                 authorizationapi.Users := sets.NewString ["alice"];
                 authorizationapi.Groups := sets.NewString ["zeta"; "alpha"] |}
              eq_refl) as (_ & Hu & _ & Hg & _ & _ & Hperm).
  destruct (report_lists_principals_sorted
              "" Clients.createBuildsEverywhere
              {| authorizationapi.Namespace := "";
                 authorizationapi.Users := ∅;
                 authorizationapi.Groups := sets.NewString ["system:admins"] |}
              eq_refl) as (Hnone & _).
  split; [rewrite Hu; [vm_compute; reflexivity|vm_compute; discriminate]|].
  split; [rewrite Hg; [vm_compute; reflexivity|vm_compute; discriminate]|].
  split; [vm_compute; reflexivity|].
  split; [apply Hperm; apply perm_swap|].
  apply Hnone. reflexivity.
Defined.

(** With the sentinel of Kubernetes, the empty string: a result for all
    namespaces and a result for the namespace default. *)
Lemma report_namespace_line_witness :
  (section 0 (snd (run "" Clients.createBuildsEverywhere [])) =
   Some (Printf (fmt.lit "Namespace: <all>\n") [])
   <-> "" = "")
  /\ sectionText 0 (snd (run "" Clients.createBuildsEverywhere [])) =
     fmt.lit "Namespace: <all>\n"
  /\ section 0 (snd (run "" Clients.getPods [])) =
     Some (Printf (fmt.lit "Namespace: %s\n") ["default"])
  /\ sectionText 0 (snd (run "" Clients.getPods [])) =
     fmt.lit "Namespace: default\n".
Proof.
  destruct (report_namespace_line
              "" Clients.createBuildsEverywhere
              {| authorizationapi.Namespace := "";
                 authorizationapi.Users := ∅;
                 authorizationapi.Groups := sets.NewString ["system:admins"] |}
              eq_refl) as (Hiff & Hall & _).
  destruct (report_namespace_line
              "" Clients.getPods
              {| authorizationapi.Namespace := "default";
                 authorizationapi.Users := sets.NewString ["alice"];
                 authorizationapi.Groups := sets.NewString ["zeta"; "alpha"] |}
              eq_refl) as (_ & _ & Hns).
  split; [exact Hiff|].
  split; [apply Hall; reflexivity|].
  apply Hns. discriminate.
Defined.

(** C8, as stated, fails: the Resource section too is followed by a blank
    line, its format being ["Resource:  %s\n\n"]. *)
Lemma report_blank_line_after_resource :
  fst (run "" Clients.getPods []) = None
  /\ List.map blankLineAfter (sections (snd (run "" Clients.getPods []))) =
     [false; false; true; true; true]
  /\ stdout (snd (run "" Clients.getPods [])) =
     fmt.lit "Namespace: default\nVerb:      get\nResource:  pods\n\nUsers:  alice\n\nGroups: alpha\n        zeta\n\n"
  /\ ~ (forall NamespaceAll o,
          fst (run NamespaceAll o []) = None ->
          List.map blankLineAfter (sections (snd (run NamespaceAll o []))) =
          [false; false; false; true; true]).
Proof.
  split; [vm_compute; reflexivity|].
  split; [vm_compute; reflexivity|].
  split; [vm_compute; reflexivity|].
  intros H. specialize (H "" Clients.getPods eq_refl).
  vm_compute in H. discriminate H.
Qed.

(** The report of [who-can get pods]. *)
Lemma report_five_sections_witness :
  let log := snd (run "" Clients.getPods []) in
  List.map heading (sections log) =
  ["Namespace"; "Verb"; "Resource"; "Users"; "Groups"]
  /\ List.map blankLineAfter (sections log) = [false; false; true; true; true]
  /\ stdout log =
     sectionText 0 log +:+ sectionText 1 log +:+ sectionText 2 log
     +:+ sectionText 3 log +:+ sectionText 4 log
  /\ sectionText 1 log = "Verb:      " +:+ verb Clients.getPods +:+ fmt.lit "\n"
  /\ sectionText 2 log =
     "Resource:  " +:+ resourceDisplay Clients.getPods +:+ fmt.lit "\n\n"
  /\ endsWithBlankLine (sectionText 2 log) = true
  /\ endsWithBlankLine (sectionText 3 log) = true
  /\ endsWithBlankLine (sectionText 4 log) = true
  /\ endsWithBlankLine (sectionText 1 log) = endsWithNewline (verb Clients.getPods)
  /\ endsWithBlankLine (sectionText 0 log) =
     (let ns := authorizationapi.Namespace (fst (reviewAnswer Clients.getPods)) in
      if String.eqb ns "" then false else endsWithNewline ns).
Proof. apply (report_five_sections "" Clients.getPods). reflexivity. Defined.

(** PÖDS and pöds, and PODS and pods with a mapper that knows pods. *)
Lemma resourceFor_case_insensitive_witness :
  (lookups Factories.podsMapper "PÖDS" = lookups Factories.podsMapper "pöds"
   /\ (resolve Factories.podsMapper "PÖDS" = resolve Factories.podsMapper "pöds"
       \/ (resolve Factories.podsMapper "PÖDS" = degenerate "PÖDS"
           /\ resolve Factories.podsMapper "pöds" = degenerate "pöds")))
  /\ lookups Factories.podsMapper "PODS" = lookups Factories.podsMapper "pods"
  /\ resolve Factories.podsMapper "PODS" = resolve Factories.podsMapper "pods".
Proof.
  split.
  - apply (resourceFor_case_insensitive Factories.podsMapper "PÖDS" "pöds").
    reflexivity.
  - destruct (resourceFor_case_insensitive Factories.podsMapper "PODS" "pods")
      as [Hl _]; [reflexivity|].
    split; [exact Hl|]. vm_compute. reflexivity.
Defined.

(** Three arguments. *)
Lemma command_usage_error_witness :
  let f := Factories.working Factories.podsMapper
             (Clients.answering Factories.alice) in
  complete f ["get"; "pods"; "nodes"] (Factories.fresh false) [] =
  ((Some twoArguments, Factories.fresh false), [])
  /\ NewCmdWhoCan_Run "" Factories.usage f (Factories.fresh false)
       ["get"; "pods"; "nodes"] [] =
     (Fatal (Factories.usage twoArguments), []).
Proof.
  cbv zeta.
  apply (command_usage_error
           "" Factories.usage
           (Factories.working Factories.podsMapper
              (Clients.answering Factories.alice))
           (Factories.fresh false) ["get"; "pods"; "nodes"]).
  cbn. lia.
Defined.

(** No configuration, and a token the mapper knows. *)
Lemma command_client_error_witness :
  let result :=
    NewCmdWhoCan_Run "" Factories.usage (Factories.noClient Factories.podsMapper)
      (Factories.fresh false) ["get"; "pods"] [] in
  fst result = Fatal "missing config"
  /\ runEvents (snd result) = []
  /\ ~ (CallDefaultNamespace ∈ snd result)
  /\ List.filter isMapperLookup (snd result) =
     List.map MapperLookup
       (lookups (clientcmd.Object (Factories.noClient Factories.podsMapper))
          (List.nth 1 ["get"; "pods"] "")).
Proof.
  apply (command_client_error
           "" Factories.usage (Factories.noClient Factories.podsMapper)
           (Factories.fresh false) ["get"; "pods"] "missing config");
    reflexivity.
Defined.

(** [who-can get pods --all-namespaces] without a current namespace. *)
Lemma command_namespace_error_witness :
  let f := Factories.noNamespace Factories.podsMapper
             (Clients.answering Factories.alice) in
  let result :=
    NewCmdWhoCan_Run "" Factories.usage f (Factories.fresh true)
      ["get"; "pods"] [] in
  fst result = Fatal "no context"
  /\ runEvents (snd result) = []
  /\ snd result = resolutionEvents f ["get"; "pods"] ++ [CallDefaultNamespace].
Proof.
  cbv zeta.
  apply (command_namespace_error
           "" Factories.usage
           (Factories.noNamespace Factories.podsMapper
              (Clients.answering Factories.alice))
           (Factories.fresh true) ["get"; "pods"] "no context");
    reflexivity.
Defined.

(** [who-can get Pods] where alice can. *)
Lemma command_runs_completed_options_witness :
  let f := Factories.working Factories.podsMapper
             (Clients.answering Factories.alice) in
  let result :=
    NewCmdWhoCan_Run "" Factories.usage f (Factories.fresh false)
      ["get"; "Pods"] [] in
  fst result = Done
  /\ reviews (runEvents (snd result)) =
     [ LocalReview "default"
         {| authorizationapi.LocalAction :=
              {| authorizationapi.Verb := "get";
                 authorizationapi.Group := "";
                 authorizationapi.Resource := "pods" |} |} ]
  /\ stdout (runEvents (snd result)) =
     fmt.lit "Namespace: default\nVerb:      get\nResource:  pods\n\nUsers:  alice\n\nGroups: none\n\n".
Proof.
  cbv zeta.
  destruct (command_runs_completed_options
              "" Factories.usage
              (Factories.working Factories.podsMapper
                 (Clients.answering Factories.alice))
              (Factories.fresh false) ["get"; "Pods"]
              eq_refl eq_refl eq_refl) as (Hrun & Hout & Hrev).
  split; [rewrite Hout; vm_compute; reflexivity|].
  split; [rewrite Hrev; vm_compute; reflexivity|].
  rewrite Hrun. vm_compute. reflexivity.
Defined.

(** Fresh options, and options left over from an earlier
    [who-can create builds]. *)
Lemma command_overwrites_options_witness :
  let f := Factories.working Factories.podsMapper
             (Clients.answering Factories.alice) in
  NewCmdWhoCan_Run "" Factories.usage f (Factories.fresh true) ["get"; "pods"] [] =
  NewCmdWhoCan_Run "" Factories.usage f Clients.createBuildsEverywhere
    ["get"; "pods"] [].
Proof.
  cbv zeta.
  apply (command_overwrites_options
           "" Factories.usage
           (Factories.working Factories.podsMapper
              (Clients.answering Factories.alice))
           (Factories.fresh true) Clients.createBuildsEverywhere
           ["get"; "pods"]).
  reflexivity.
Defined.

(** [who-can create builds --all-namespaces] from another namespace. *)
Lemma run_all_namespaces_ignores_binding_witness :
  run ""
    {| allNamespaces := allNamespaces Clients.createBuildsEverywhere;
       bindingNamespace := "kube-system";
       client := client Clients.createBuildsEverywhere;
       verb := verb Clients.createBuildsEverywhere;
       resource := resource Clients.createBuildsEverywhere |} [] =
  run "" Clients.createBuildsEverywhere [].
Proof.
  apply (run_all_namespaces_ignores_binding
           "" Clients.createBuildsEverywhere "kube-system").
  reflexivity.
Defined.

(** With the sentinel of Kubernetes, the empty string, and a server that
    names the namespace [<all>]. *)
Lemma report_namespace_text_witness :
  let resp := {| authorizationapi.Namespace := "<all>";
                 authorizationapi.Users := ∅;
                 authorizationapi.Groups := ∅ |} in
  let o := {| allNamespaces := true;
              bindingNamespace := "default";
              client := Clients.answering resp;
              verb := "get";
              resource := Clients.pods |} in
  sectionText 0 (snd (run "" o [])) = fmt.lit "Namespace: <all>\n"
  <-> authorizationapi.Namespace resp = "" \/ authorizationapi.Namespace resp = "<all>".
Proof.
  cbv zeta.
  apply (report_namespace_text
           ""
           {| allNamespaces := true;
              bindingNamespace := "default";
              client := Clients.answering
                          {| authorizationapi.Namespace := "<all>";
                             authorizationapi.Users := ∅;
                             authorizationapi.Groups := ∅ |};
              verb := "get";
              resource := Clients.pods |}
           {| authorizationapi.Namespace := "<all>";
              authorizationapi.Users := ∅;
              authorizationapi.Groups := ∅ |}).
  reflexivity.
Defined.

(** A server that answers with the one user named none. *)
Lemma report_none_text_witness :
  let resp := {| authorizationapi.Namespace := "default";
                 authorizationapi.Users := sets.NewString ["none"];
                 authorizationapi.Groups := ∅ |} in
  let o := {| allNamespaces := false;
              bindingNamespace := "default";
              client := Clients.answering resp;
              verb := "get";
              resource := Clients.pods |} in
  sectionText 3 (snd (run "" o [])) = fmt.lit "Users:  none\n\n"
  /\ sectionText 4 (snd (run "" o [])) = fmt.lit "Groups: none\n\n".
Proof.
  cbv zeta.
  destruct (report_none_text
              ""
              {| allNamespaces := false;
                 bindingNamespace := "default";
                 client := Clients.answering
                             {| authorizationapi.Namespace := "default";
                                authorizationapi.Users := sets.NewString ["none"];
                                authorizationapi.Groups := ∅ |};
                 verb := "get";
                 resource := Clients.pods |}
              {| authorizationapi.Namespace := "default";
                 authorizationapi.Users := sets.NewString ["none"];
                 authorizationapi.Groups := ∅ |}
              eq_refl) as [Hu Hg].
  split.
  - apply Hu. right. vm_compute. reflexivity.
  - apply Hg. left. reflexivity.
Defined.

(** The same answer to a namespace-scoped and to a cluster-scoped review. *)
Lemma report_depends_on_answer_witness :
  let resp := {| authorizationapi.Namespace := "default";
                 authorizationapi.Users := sets.NewString ["alice"];
                 authorizationapi.Groups := sets.NewString ["zeta"; "alpha"] |} in
  let o' := {| allNamespaces := true;
               bindingNamespace := "kube-system";
               client := Clients.answering resp;
               verb := "get";
               resource := {| Group := ""; Version := ""; Resource := "pods" |} |} in
  sections (snd (run "" Clients.getPods [])) = sections (snd (run "" o' []))
  /\ stdout (snd (run "" Clients.getPods [])) = stdout (snd (run "" o' [])).
Proof.
  cbv zeta.
  apply (report_depends_on_answer
           "" Clients.getPods
           {| allNamespaces := true;
              bindingNamespace := "kube-system";
              client := Clients.answering
                          {| authorizationapi.Namespace := "default";
                             authorizationapi.Users := sets.NewString ["alice"];
                             authorizationapi.Groups :=
                               sets.NewString ["zeta"; "alpha"] |};
              verb := "get";
              resource := {| Group := ""; Version := ""; Resource := "pods" |} |}
           {| authorizationapi.Namespace := "default";
              authorizationapi.Users := sets.NewString ["alice"];
              authorizationapi.Groups := sets.NewString ["zeta"; "alpha"] |});
    reflexivity.
Defined.

(** [who-can get Widgets] with a mapper that knows pods and builds. *)
Lemma command_unknown_resource_witness :
  let f := Factories.working Factories.podsMapper
             (Clients.answering Factories.alice) in
  let result :=
    NewCmdWhoCan_Run "" Factories.usage f (Factories.fresh false)
      ["get"; "Widgets"] [] in
  reviews (runEvents (snd result)) =
  [ LocalReview "default"
      {| authorizationapi.LocalAction :=
           {| authorizationapi.Verb := "get";
              authorizationapi.Group := "";
              authorizationapi.Resource := "Widgets" |} |} ]
  /\ (fst result = Done ->
      sectionText 2 (runEvents (snd result)) =
      "Resource:  " +:+ "Widgets" +:+ fmt.lit "\n\n").
Proof.
  cbv zeta.
  apply (command_unknown_resource
           "" Factories.usage
           (Factories.working Factories.podsMapper
              (Clients.answering Factories.alice))
           (Factories.fresh false) "get" "Widgets" "no match");
    reflexivity.
Defined.
